(** * Screen-capture detection and response engine (bookapp-win)

    A shallow embedding of the Electron main process of the application
    (class [ScreenCaptureProtection], its IPC handlers) and of the renderer
    hook [useScreenshotProtection], with the properties of the design
    document stated over it.

    Text is modelled as [string] over 8-bit character codes, and the text
    primitives are those of JavaScript on ASCII text: [toLowerCase] maps
    the letters A-Z to a-z and leaves every other code alone.  The
    properties that rest on them are stated for ASCII signatures and
    listings ([ascii_text]).  The operating system is
    an oracle ([World]) and every effect of the program is recorded, in
    order, in the trace carried by the program state. *)

From Stdlib Require Import String Ascii List Bool Arith Lia.
Import ListNotations.
Open Scope list_scope.
Open Scope string_scope.
Open Scope nat_scope.

(* ===================================================================== *)
(** ** JavaScript text primitives used by the detector *)
(* ===================================================================== *)

Module Text.

Definition is_upper (c : ascii) : bool :=
  (65 <=? nat_of_ascii c) && (nat_of_ascii c <=? 90).

Definition lower_char (c : ascii) : ascii :=
  if is_upper c then ascii_of_nat (nat_of_ascii c + 32) else c.

(** [String.prototype.toLowerCase] on ASCII text: the letters A-Z become
    a-z and nothing else changes. *)
Fixpoint toLowerCase (s : string) : string :=
  match s with
  | EmptyString => EmptyString
  | String c s' => String (lower_char c) (toLowerCase s')
  end.

(** [s.startsWith(p)] *)
Fixpoint startsWith (s p : string) {struct p} : bool :=
  match p, s with
  | EmptyString, _ => true
  | String _ _, EmptyString => false
  | String a p', String b s' => Ascii.eqb a b && startsWith s' p'
  end.

(** [s.includes(p)]: [p] occurs in [s] at some position *)
Fixpoint includes (s p : string) : bool :=
  startsWith s p ||
  match s with
  | EmptyString => false
  | String _ s' => includes s' p
  end.

(** White space removed by [String.prototype.trim] from ASCII text: the
    codes 9 to 13 and the space. *)
Definition is_space (c : ascii) : bool :=
  let n := nat_of_ascii c in
  (n =? 32) || ((9 <=? n) && (n <=? 13)).

Fixpoint trimStart (s : string) : string :=
  match s with
  | EmptyString => EmptyString
  | String c s' => if is_space c then trimStart s' else s
  end.

(** Drops the trailing white space: a character is kept when it is not a
    space or when something is kept after it. *)
Fixpoint trimEnd (s : string) : string :=
  match s with
  | EmptyString => EmptyString
  | String c s' =>
      match trimEnd s' with
      | EmptyString => if is_space c then EmptyString else String c EmptyString
      | r => String c r
      end
  end.

(** [s.trim()] *)
Definition trim (s : string) : string := trimEnd (trimStart s).

Definition newline : ascii := ascii_of_nat 10.
Definition dquote : string := String (ascii_of_nat 34) EmptyString.

(** [s.split('\n')]: always at least one piece. *)
Fixpoint split_lines (s : string) : list string :=
  match s with
  | EmptyString => [EmptyString]
  | String c s' =>
      if Ascii.eqb c newline then EmptyString :: split_lines s'
      else match split_lines s' with
           | [] => [String c EmptyString]
           | l :: ls => String c l :: ls
           end
  end.

(** The truthiness of a JavaScript string: only the empty one is falsy. *)
Definition truthy (s : string) : bool :=
  match s with EmptyString => false | String _ _ => true end.

(** A signature written in lower case. *)
Definition lower_case (s : string) : Prop := toLowerCase s = s.

(** [p] occurs in [s]. *)
Definition Substring (p s : string) : Prop :=
  exists a b, s = a ++ p ++ b.

(** [sig] occurs in [P] up to the case of the letters: some piece of [P]
    equals [sig] once both are put in lower case. *)
Definition CaseInsensitiveSubstring (sig P : string) : Prop :=
  exists a m b, P = a ++ m ++ b /\ toLowerCase m = toLowerCase sig.

(** The pattern language of [new RegExp(p, 'i')] for patterns made of
    ordinary characters and the dot, tested against ASCII text: the dot
    matches any character but a line terminator, any other character
    matches itself up to case.  The only pattern the detector compiles,
    ['winlogon.exe'], is of this kind. *)
Definition is_line_terminator (c : ascii) : bool :=
  (nat_of_ascii c =? 10) || (nat_of_ascii c =? 13).

Definition regex_char_i (pc c : ascii) : bool :=
  if Ascii.eqb pc "."%char then negb (is_line_terminator c)
  else Ascii.eqb (lower_char pc) (lower_char c).

Fixpoint regex_match_here (pat s : string) {struct pat} : bool :=
  match pat, s with
  | EmptyString, _ => true
  | String _ _, EmptyString => false
  | String pc pat', String c s' => regex_char_i pc c && regex_match_here pat' s'
  end.

(** [new RegExp(pat, 'i').test(s)] *)
Fixpoint regex_test_i (pat s : string) : bool :=
  regex_match_here pat s ||
  match s with
  | EmptyString => false
  | String _ s' => regex_test_i pat s'
  end.

(** ASCII text: every character code is below 128.  On such text the
    primitives above are those of JavaScript.  On other text the runtime
    consults the Unicode tables (case mappings that change the length of
    the text, further white space and line terminators), which are not
    modelled: the properties that rest on [toLowerCase], [trim] or the
    regular expression are stated for ASCII text. *)
Definition is_ascii (c : ascii) : bool := nat_of_ascii c <? 128.

Fixpoint ascii_text (s : string) : bool :=
  match s with
  | EmptyString => true
  | String c s' => is_ascii c && ascii_text s'
  end.

End Text.
Import Text.


(* ===================================================================== *)
(** ** The main process: operating system, state and effects *)
(* ===================================================================== *)

Module Main.

(** Everything the main process does to the outside, in the order it does
    it.  [ESend] is [webContents.send(channel)], the only way the main
    process can notify the renderer. *)
Inductive Event : Type :=
| EExec (cmd : string)                 (* execAsync(cmd) *)
| ELog (msg : string)                  (* console.log / console.warn *)
| EError (msg : string)                (* console.error *)
| EGetMediaAccessStatus                (* systemPreferences.getMediaAccessStatus('screen') *)
| EGetSources                          (* desktopCapturer.getSources(...) *)
| ESetInterval (handle ms : nat)       (* setInterval(callback, ms) *)
| EClearInterval (handle : nat)        (* clearInterval(handle) *)
| EShowMessageBox (detail : string)    (* dialog.showMessageBox(mainWindow, ...) *)
| EAppQuit                             (* app.quit() *)
| ESetTimeoutQuit (ms : nat)           (* setTimeout(() => app.quit(), ms) *)
| ESend (channel : string).            (* mainWindow.webContents.send(channel) *)

(** The host: what [process], the shell, Electron and the user answer.  The
    answers may change over time, so each oracle takes the number of
    requests made so far. *)
Record World : Type := {
  platform : string;                                  (* process.platform *)
  isDevelopment : bool;                               (* NODE_ENV === 'development' || is.dev *)
  DISABLE_SCREEN_PROTECTION : option string;          (* process.env.DISABLE_SCREEN_PROTECTION *)
  exec_result : nat -> string -> option string;       (* stdout, or None: the promise rejects *)
  mediaAccessStatus : nat -> option string;           (* None: the call throws *)
  desktopSources : nat -> option nat;                 (* sources.length, or None: rejects *)
  messageBoxResponse : nat -> nat                     (* result.response *)
}.

(** The module-level variables and the fields of the singleton. *)
Record State : Type := {
  isMonitoring : bool;
  developmentMode : bool;
  suspiciousProcesses : list string;
  detectedProcess : string;
  screenProtectionActive : bool;
  screenCaptureCheckInterval : option nat;
  nextHandle : nat;                (* the handle the next setInterval returns *)
  clock : nat                      (* requests made to the host so far *)
}.

Definition set_isMonitoring (b : bool) (st : State) : State :=
  {| isMonitoring := b; developmentMode := developmentMode st;
     suspiciousProcesses := suspiciousProcesses st;
     detectedProcess := detectedProcess st;
     screenProtectionActive := screenProtectionActive st;
     screenCaptureCheckInterval := screenCaptureCheckInterval st;
     nextHandle := nextHandle st; clock := clock st |}.

Definition set_detectedProcess (d : string) (st : State) : State :=
  {| isMonitoring := isMonitoring st; developmentMode := developmentMode st;
     suspiciousProcesses := suspiciousProcesses st;
     detectedProcess := d;
     screenProtectionActive := screenProtectionActive st;
     screenCaptureCheckInterval := screenCaptureCheckInterval st;
     nextHandle := nextHandle st; clock := clock st |}.

Definition set_screenProtectionActive (b : bool) (st : State) : State :=
  {| isMonitoring := isMonitoring st; developmentMode := developmentMode st;
     suspiciousProcesses := suspiciousProcesses st;
     detectedProcess := detectedProcess st;
     screenProtectionActive := b;
     screenCaptureCheckInterval := screenCaptureCheckInterval st;
     nextHandle := nextHandle st; clock := clock st |}.

Definition set_interval_handle (h : option nat) (st : State) : State :=
  {| isMonitoring := isMonitoring st; developmentMode := developmentMode st;
     suspiciousProcesses := suspiciousProcesses st;
     detectedProcess := detectedProcess st;
     screenProtectionActive := screenProtectionActive st;
     screenCaptureCheckInterval := h;
     nextHandle := nextHandle st; clock := clock st |}.

Definition bump_handle (st : State) : State :=
  {| isMonitoring := isMonitoring st; developmentMode := developmentMode st;
     suspiciousProcesses := suspiciousProcesses st;
     detectedProcess := detectedProcess st;
     screenProtectionActive := screenProtectionActive st;
     screenCaptureCheckInterval := screenCaptureCheckInterval st;
     nextHandle := S (nextHandle st); clock := clock st |}.

Definition tick_clock (st : State) : State :=
  {| isMonitoring := isMonitoring st; developmentMode := developmentMode st;
     suspiciousProcesses := suspiciousProcesses st;
     detectedProcess := detectedProcess st;
     screenProtectionActive := screenProtectionActive st;
     screenCaptureCheckInterval := screenCaptureCheckInterval st;
     nextHandle := nextHandle st; clock := S (clock st) |}.

(** *** A monad for the effects: state, and the events in order *)

Record Outcome (A : Type) : Type := {
  value : A;                 (* what the call returns *)
  after : State;             (* the state it leaves *)
  events : list Event        (* what it did, oldest first *)
}.
Arguments value {A} _.
Arguments after {A} _.
Arguments events {A} _.

Definition M (A : Type) : Type := State -> Outcome A.

Definition ret {A : Type} (a : A) : M A :=
  fun st => {| value := a; after := st; events := [] |}.

Definition bind {A B : Type} (m : M A) (k : A -> M B) : M B :=
  fun st =>
    let r1 := m st in
    let r2 := k (value r1) (after r1) in
    {| value := value r2; after := after r2; events := events r1 ++ events r2 |}.

Definition get : M State :=
  fun st => {| value := st; after := st; events := [] |}.

Definition modify (f : State -> State) : M unit :=
  fun st => {| value := tt; after := f st; events := [] |}.

Declare Scope js_scope.
Delimit Scope js_scope with js.
Notation "x <- m ;; k" := (bind m (fun x => k))
  (at level 61, m at next level, right associativity) : js_scope.
Notation "m ;; k" := (bind m (fun _ => k))
  (at level 61, right associativity) : js_scope.
Local Open Scope js_scope.

Definition emit (e : Event) : M unit :=
  fun st => {| value := tt; after := st; events := [e] |}.
Definition console_log (msg : string) : M unit := emit (ELog msg).
Definition console_error (msg : string) : M unit := emit (EError msg).

Section Program.

Variable w : World.

(** *** Host primitives *)

(** [await execAsync(cmd)]: [Some stdout], or [None] when the promise
    rejects (command missing, non-zero exit). *)
Definition execAsync (cmd : string) : M (option string) :=
  st <- get ;;
  emit (EExec cmd) ;;
  modify tick_clock ;;
  ret (exec_result w (clock st) cmd).

Definition getMediaAccessStatus : M (option string) :=
  st <- get ;;
  emit EGetMediaAccessStatus ;;
  modify tick_clock ;;
  ret (mediaAccessStatus w (clock st)).

Definition getSources : M (option nat) :=
  st <- get ;;
  emit EGetSources ;;
  modify tick_clock ;;
  ret (desktopSources w (clock st)).

(** [await dialog.showMessageBox(...)], returning [result.response]. *)
Definition showMessageBox (detail : string) : M nat :=
  st <- get ;;
  emit (EShowMessageBox detail) ;;
  modify tick_clock ;;
  ret (messageBoxResponse w (clock st)).

(** [setInterval(callback, ms)], returning a fresh handle. *)
Definition setInterval (ms : nat) : M nat :=
  st <- get ;;
  emit (ESetInterval (nextHandle st) ms) ;;
  modify bump_handle ;;
  ret (nextHandle st).

Definition clearInterval (h : nat) : M unit := emit (EClearInterval h).

Definition is_darwin : bool := String.eqb (platform w) "darwin".
Definition is_win32 : bool := String.eqb (platform w) "win32".

(** *** Process scanner *)

(** [process.platform === 'win32' ? 'tasklist' : 'ps aux'] *)
Definition listing_command : string :=
  if is_win32 then "tasklist" else "ps aux".

Definition checkSuspiciousProcesses : M bool :=
  r <- execAsync listing_command ;;
  match r with
  | Some stdout =>
      let processes := toLowerCase stdout in
      st <- get ;;
      ret (existsb (fun proc => includes processes proc) (suspiciousProcesses st))
  | None =>
      console_error "[ScreenProtection] Error checking processes:" ;;
      ret false
  end.

Definition checkSpecificProcesses (processNames : list string) : M bool :=
  r <- execAsync listing_command ;;
  match r with
  | Some stdout =>
      let processes := toLowerCase stdout in
      match find (fun proc => includes processes proc) processNames with
      | Some detected =>
          if truthy detected then
            console_log ("[ScreenProtection] Detected process: " ++ detected) ;;
            ret true
          else ret false
      | None => ret false
      end
  | None =>
      console_error "[ScreenProtection] Error checking specific processes:" ;;
      ret false
  end.

(** *** macOS probe *)

Definition screenRecordingProcesses : list string :=
  [ "screencapture"; "Screenshot"; "QuickTime Player"; "CleanMyMac";
    "CleanMaster- Remove Junk Files"; "Keka"; "The Unarchiver";
    "ScreenSearch"; "Skitch"; "Snagit"; "CloudApp"; "Droplr";
    "Monosnap"; "LightShot"; "Gyazo"; "Capto" ].

(** [`pgrep -f "${process}"`] *)
Definition pgrep_command (process : string) : string :=
  "pgrep -f " ++ dquote ++ process ++ dquote.

(** The [for ... of] loop of method 1; [true] when it returned from the
    function. *)
Fixpoint pgrep_loop (names : list string) : M bool :=
  match names with
  | [] => ret false
  | process :: rest =>
      r <- execAsync (pgrep_command process) ;;
      match r with
      | Some stdout =>
          if 0 <? String.length (trim stdout) then
            console_log ("[ScreenProtection] Screen capture process detected: " ++ process) ;;
            ret true
          else pgrep_loop rest
      | None => pgrep_loop rest
      end
  end.

Definition lsof_grep_command : string :=
  "lsof | grep " ++ dquote ++ "Screen Capture" ++ dquote.

Definition detectMacOSScreenCapture : M bool :=
  found1 <- pgrep_loop screenRecordingProcesses ;;
  if found1 then ret true else
  r2 <- execAsync lsof_grep_command ;;
  if match r2 with Some stdout => 0 <? String.length (trim stdout) | None => false end
  then
    console_log "[ScreenProtection] Active screen recording detected via lsof" ;;
    ret true
  else
  r3 <- execAsync "ps aux | grep -i screenshot | grep -v grep" ;;
  if match r3 with Some stdout => 0 <? String.length (trim stdout) | None => false end
  then
    console_log "[ScreenProtection] Screenshot process detected" ;;
    ret true
  else
  r4 <- execAsync "lsof /dev/console 2>/dev/null || true" ;;
  if match r4 with
     | Some stdout =>
         let lines :=
           filter (fun line => includes line "screencapture" || includes line "Screenshot")
                  (split_lines stdout) in
         0 <? List.length lines
     | None => false
     end
  then
    console_log "[ScreenProtection] Screen access detected via console monitoring" ;;
    ret true
  else ret false.

(** Every command the probe can hand to the shell. *)
Definition probe_commands : list string :=
  (map pgrep_command screenRecordingProcesses
   ++ [ lsof_grep_command;
        "ps aux | grep -i screenshot | grep -v grep";
        "lsof /dev/console 2>/dev/null || true" ])%list.

(** *** Windows heuristic *)

Definition captureProcesses : list string := [ "winlogon.exe" ].

Definition wmic_command : string := "wmic process get name,processid".

Definition detectWindowsScreenCapture : M bool :=
  r <- execAsync wmic_command ;;
  match r with
  | Some stdout =>
      let processes := toLowerCase stdout in
      match find (fun proc => regex_test_i proc processes) captureProcesses with
      | Some detectedProc =>
          if truthy detectedProc then
            modify (set_detectedProcess detectedProc) ;;
            console_log ("[ScreenProtection] Potential screen capture detected on Windows: "
                         ++ detectedProc) ;;
            ret true
          else ret false
      | None => ret false
      end
  | None =>
      console_error "[ScreenProtection] Error detecting Windows screen capture:" ;;
      ret false
  end.

(** *** One detection pass *)

Definition criticalProcesses : list string :=
  [ "obs"; "obs64"; "obs-studio"; "bandicam"; "fraps" ].

Definition detectScreenCapture : M bool :=
  criticalProcessDetected <- checkSpecificProcesses criticalProcesses ;;
  if criticalProcessDetected then
    console_log "[ScreenProtection] Critical screen capture process detected" ;;
    ret true
  else
  macOSCapture <- (if is_darwin then detectMacOSScreenCapture else ret false) ;;
  if macOSCapture then
    console_log "[ScreenProtection] macOS screen capture detected" ;;
    ret true
  else
  st <- get ;;
  if developmentMode st then
    console_log "[ScreenProtection] Development mode - skipping additional process checks" ;;
    ret false
  else
  processDetected <- checkSuspiciousProcesses ;;
  if processDetected then
    console_log "[ScreenProtection] Suspicious screen capture process detected" ;;
    ret true
  else
  if is_win32 then detectWindowsScreenCapture
  else ret false.

(** *** Response to a detection *)

Definition nl2 : string := String newline (String newline EmptyString).

Definition alert_detail (detectedInfo : string) : string :=
  "For security reasons, this application must close when screen recording is detected. This helps protect sensitive content from unauthorized capture."
  ++ detectedInfo ++ nl2
  ++ "The application will now close to ensure content security.".

Definition stopMonitoring : M unit :=
  st <- get ;;
  if negb (isMonitoring st) then
    console_log "[ScreenProtection] Already stopped, skipping stop"
  else
    modify (set_isMonitoring false) ;;
    console_log "[ScreenProtection] Stopping screen capture monitoring" ;;
    match screenCaptureCheckInterval st with
    | Some h =>
        clearInterval h ;;
        modify (set_interval_handle None)
    | None => ret tt
    end.

Definition handleScreenCaptureDetected : M unit :=
  console_log "[ScreenProtection] SECURITY ALERT: Screen capture detected!" ;;
  stopMonitoring ;;
  st <- get ;;
  let detectedInfo :=
    if truthy (detectedProcess st)
    then nl2 ++ "Detected process: " ++ detectedProcess st
    else EmptyString in
  response <- showMessageBox (alert_detail detectedInfo) ;;
  if response =? 0 then
    console_log "[ScreenProtection] User acknowledged security alert, closing application" ;;
    emit EAppQuit
  else
    console_log "[ScreenProtection] User cancelled, but app will close anyway for security" ;;
    emit (ESetTimeoutQuit 1000).

(** *** Scheduler *)

(** The function handed to [setInterval]. *)
Definition intervalCallback : M unit :=
  captureDetected <- detectScreenCapture ;;
  if captureDetected then handleScreenCaptureDetected else ret tt.

(** [process.env.DISABLE_SCREEN_PROTECTION === 'true'] *)
Definition protection_disabled : bool :=
  match DISABLE_SCREEN_PROTECTION w with
  | Some v => String.eqb v "true"
  | None => false
  end.

Definition startMonitoring : M unit :=
  st <- get ;;
  if isMonitoring st then
    console_log "[ScreenProtection] Already monitoring, skipping start"
  else
  if protection_disabled then
    console_log "[ScreenProtection] Screen protection disabled via environment variable" ;;
    modify (set_isMonitoring true)
  else
    modify (set_isMonitoring true) ;;
    console_log ("[ScreenProtection] Starting screen capture monitoring ("
                 ++ (if developmentMode st then "development" else "production")
                 ++ " mode)") ;;
    let checkInterval := if developmentMode st then 5000 else 2000 in
    h <- setInterval checkInterval ;;
    modify (set_interval_handle (Some h)).

(** *** Permission broker *)

Definition checkMacOSScreenRecordingPermission : M bool :=
  if negb is_darwin then ret true else
  r <- getMediaAccessStatus ;;
  match r with
  | Some status => ret (String.eqb status "granted")
  | None =>
      console_error "[ScreenProtection] Error checking macOS permission:" ;;
      ret false
  end.

Definition requestMacOSScreenRecordingPermission : M bool :=
  if negb is_darwin then ret true else
  r <- getSources ;;
  match r with
  | Some n => ret (0 <? n)
  | None =>
      console_error "[ScreenProtection] Error requesting macOS permission:" ;;
      ret false
  end.

(** *** IPC handlers *)

Record IpcResult : Type := { success : bool; error : option string }.

Definition ipc_check_screen_permission : M bool :=
  if is_darwin then checkMacOSScreenRecordingPermission else ret true.

Definition ipc_request_screen_permission : M bool :=
  if is_darwin then requestMacOSScreenRecordingPermission else ret true.

Definition ipc_start_screen_protection : M IpcResult :=
  modify (set_screenProtectionActive true) ;;
  startMonitoring ;;
  console_log "[Main] Screen protection started" ;;
  ret {| success := true; error := None |}.

Definition ipc_stop_screen_protection : M IpcResult :=
  modify (set_screenProtectionActive false) ;;
  stopMonitoring ;;
  console_log "[Main] Screen protection stopped" ;;
  ret {| success := true; error := None |}.

(** [get-screen-protection-status]: the pair (active, platform). *)
Definition ipc_get_screen_protection_status : M (bool * string) :=
  st <- get ;;
  ret (screenProtectionActive st, platform w).

(** *** The process as a whole *)

(** The state when the module is loaded and the singleton is created. *)
Definition initial_state : State :=
  {| isMonitoring := false;
     developmentMode := isDevelopment w;
     suspiciousProcesses :=
       [ "obs"; "obs64"; "obs-studio"; "streamlabs"; "xsplit"; "bandicam"; "fraps";
         "camtasia"; "snagit"; "screenpresso"; "faststone"; "picpick" ];
     detectedProcess := EmptyString;
     screenProtectionActive := false;
     screenCaptureCheckInterval := None;
     nextHandle := 0;
     clock := 0 |}.

(** What drives the detector: a request of the renderer on one of the
    four protection channels, or the timer firing.  Each is run to
    completion before the next.  The other handlers of the main process
    are not operations of this model: ['ping'], ['fetch-pdf'] and
    ['check-platform-info'] do not touch the detector, and ['app-quit']
    and ['window-all-closed'], which end the process at once, are added
    to these operations by [Request] further down. *)
Inductive Op : Type :=
| OpStart              (* invoke('start-screen-protection') *)
| OpStop               (* invoke('stop-screen-protection') *)
| OpCheckPermission    (* invoke('check-screen-permission') *)
| OpRequestPermission  (* invoke('request-screen-permission') *)
| OpTick.              (* the interval elapses *)

(** An interval fires only while its handle has not been cleared. *)
Definition step (o : Op) : M unit :=
  match o with
  | OpStart => ipc_start_screen_protection ;; ret tt
  | OpStop => ipc_stop_screen_protection ;; ret tt
  | OpCheckPermission => ipc_check_screen_permission ;; ret tt
  | OpRequestPermission => ipc_request_screen_permission ;; ret tt
  | OpTick =>
      st <- get ;;
      match screenCaptureCheckInterval st with
      | Some _ => intervalCallback
      | None => ret tt
      end
  end.

Fixpoint run (ops : list Op) : M unit :=
  match ops with
  | [] => ret tt
  | o :: ops' => step o ;; run ops'
  end.

End Program.

(** *** Reading a trace *)

Definition timer_step (act : list nat) (e : Event) : list nat :=
  match e with
  | ESetInterval h _ => act ++ [h]
  | EClearInterval h => List.remove Nat.eq_dec h act
  | _ => act
  end.

(** The interval timers set and not yet cleared. *)
Definition active_timers (tr : list Event) : list nat :=
  fold_left timer_step tr [].

(** The commands handed to the shell, in order. *)
Fixpoint exec_calls (tr : list Event) : list string :=
  match tr with
  | [] => []
  | EExec cmd :: tr' => cmd :: exec_calls tr'
  | _ :: tr' => exec_calls tr'
  end.

(** The notifications sent to the renderer, in order. *)
Fixpoint notifications (tr : list Event) : list string :=
  match tr with
  | [] => []
  | ESend ch :: tr' => ch :: notifications tr'
  | _ :: tr' => notifications tr'
  end.

(** The delay, in milliseconds, until the application quits: [Some 0] for
    a direct [app.quit()], the timeout for a deferred one, [None] when the
    trace never quits. *)
Fixpoint termination_delay (tr : list Event) : option nat :=
  match tr with
  | [] => None
  | EAppQuit :: _ => Some 0
  | ESetTimeoutQuit ms :: _ => Some ms
  | _ :: tr' => termination_delay tr'
  end.

(** Walks a trace with the timers active so far and checks [ok] at every
    event. *)
Fixpoint always_from (ok : list nat -> Event -> bool) (act : list nat)
    (tr : list Event) : bool :=
  match tr with
  | [] => true
  | e :: tr' => ok act e && always_from ok (timer_step act e) tr'
  end.

(** A prompt is in order when no interval timer is active. *)
Definition prompt_ok (act : list nat) (e : Event) : bool :=
  match e with
  | EShowMessageBox _ => match act with [] => true | _ :: _ => false end
  | _ => true
  end.

(** An event is in order when it leaves at most one timer active. *)
Definition timers_ok (act : list nat) (e : Event) : bool :=
  List.length (timer_step act e) <=? 1.

(** Every prompt of the trace is shown with the scheduler stopped. *)
Definition prompts_when_stopped (tr : list Event) : bool :=
  always_from prompt_ok [] tr.

(** At every point of the trace at most one interval timer is active. *)
Definition at_most_one_timer (tr : list Event) : bool :=
  always_from timers_ok [] tr.

(** Events that touch neither the timers nor the user nor the life of the
    application: shell commands, permission queries and logging. *)
Definition plain (e : Event) : bool :=
  match e with
  | EExec _ | ELog _ | EError _ | EGetMediaAccessStatus | EGetSources => true
  | _ => false
  end.

(** [st'] differs from [st] at most in the clock and the detected
    process. *)
Definition frame (st st' : State) : Prop :=
  isMonitoring st' = isMonitoring st
  /\ developmentMode st' = developmentMode st
  /\ suspiciousProcesses st' = suspiciousProcesses st
  /\ screenProtectionActive st' = screenProtectionActive st
  /\ screenCaptureCheckInterval st' = screenCaptureCheckInterval st
  /\ nextHandle st' = nextHandle st.

(** A computation that only looks: plain events, scheduler untouched. *)
Definition Quiet {A : Type} (m : M A) : Prop :=
  forall st, frame st (after (m st)) /\ forallb plain (events (m st)) = true.

(** A state and the trace that led to it agree on the timer, and a live
    timer means the monitoring flag is set. *)
Definition consistent (tr : list Event) (st : State) : Prop :=
  active_timers tr =
    match screenCaptureCheckInterval st with Some h => [h] | None => [] end
  /\ (screenCaptureCheckInterval st <> None -> isMonitoring st = true).

(** A computation all of whose events satisfy [ok]. *)
Definition Emits {A : Type} (ok : Event -> bool) (m : M A) : Prop :=
  forall st, forallb ok (events (m st)) = true.

Definition not_send (e : Event) : bool :=
  match e with ESend _ => false | _ => true end.

Definition not_prompt (e : Event) : bool :=
  match e with EShowMessageBox _ => false | _ => true end.

(** Neither a shell command nor a new interval timer. *)
Definition no_scan (e : Event) : bool :=
  match e with EExec _ | ESetInterval _ _ => false | _ => true end.

(** No request to the operating system about permissions. *)
Definition no_permission_request (e : Event) : bool :=
  match e with EGetMediaAccessStatus | EGetSources => false | _ => true end.

(** A computation that keeps the scheduler in order: run from a state
    that agrees with the trace so far, it leaves such a state, shows its
    prompts with the scheduler stopped and never has two timers active. *)
Definition Safe {A : Type} (m : M A) : Prop :=
  forall tr st, consistent tr st ->
    consistent (tr ++ events (m st)) (after (m st))
    /\ always_from prompt_ok (active_timers tr) (events (m st)) = true
    /\ always_from timers_ok (active_timers tr) (events (m st)) = true.

End Main.

(* ===================================================================== *)
(** ** The renderer hook [useScreenshotProtection] *)
(* ===================================================================== *)

Module Renderer.

(** What the hook does to the page; the texts of the toast and of the
    prompt are left out. *)
Inductive Event : Type :=
| ELog (msg : string)                  (* console.log *)
| EToastError (duration : nat)         (* toast.error(..., { duration }) *)
| EConfirm                             (* window.confirm(...) *)
| ESetTimeoutLogout (ms : nat).        (* setTimeout(() => logout(), ms) *)

(** [handleScreenshotDetected], given the answer to [window.confirm]. *)
Definition handleScreenshotDetected (userConfirmed : bool) : list Event :=
  [ EToastError 2000;
    EConfirm;
    ESetTimeoutLogout (if userConfirmed then 500 else 100) ].

(** The channels the effect subscribes [handleScreenCaptureDetected] to. *)
Definition listened_channels : list string :=
  [ "screen-capture-detected"; "screenshot-detected" ].

(** A message of the main process arriving on [channel]. *)
Definition on_ipc_message (channel : string) (userConfirmed : bool) : list Event :=
  if existsb (String.eqb channel) listened_channels then
    ELog "[ScreenProtection] Screen capture detected via IPC"
    :: handleScreenshotDetected userConfirmed
  else [].

(** The delay until [logout()] runs, [None] when it is never scheduled. *)
Fixpoint logout_delay (tr : list Event) : option nat :=
  match tr with
  | [] => None
  | ESetTimeoutLogout ms :: _ => Some ms
  | _ :: tr' => logout_delay tr'
  end.

End Renderer.

(* ===================================================================== *)
(** ** Hosts used in the examples *)
(* ===================================================================== *)

Import Main.

(** A host whose answers do not change over time: [out] gives the output
    of each shell command, [resp] the button pressed in every dialog. *)
Definition steady_world (plat : string) (dev : bool) (flag : option string)
    (out : string -> option string) (resp : nat) : World :=
  {| platform := plat;
     isDevelopment := dev;
     DISABLE_SCREEN_PROTECTION := flag;
     exec_result := fun _ cmd => out cmd;
     mediaAccessStatus := fun _ => Some "granted";
     desktopSources := fun _ => Some 1;
     messageBoxResponse := fun _ => resp |}.

(** A shell where the process listing prints [listing] and every other
    command fails. *)
Definition listing_only (listing : string) (cmd : string) : option string :=
  if String.eqb cmd "tasklist" || String.eqb cmd "ps aux" then Some listing else None.

(** A Windows shell: [tasklist] and [wmic] both print [listing]. *)
Definition windows_shell (listing : string) (cmd : string) : option string :=
  if String.eqb cmd "tasklist" || String.eqb cmd wmic_command
  then Some listing else None.

(** A shell where every command fails. *)
Definition broken_shell (cmd : string) : option string := None.

(** Windows, production: the listing shows OBS in upper case. *)
Definition obs_upper_world : World :=
  steady_world "win32" false None (listing_only "OBS64.EXE  4242 Console") 0.

(** Linux, development mode: OBS is running. *)
Definition obs_dev_world : World :=
  steady_world "linux" true None (listing_only "user  812  0.0 obs --startrecording") 0.

(** Linux, production, OBS running, the user presses Cancel. *)
Definition obs_cancel_world : World :=
  steady_world "linux" false None (listing_only "obs") 1.

(** Linux, production, OBS running, protection switched off by the
    environment, as the script [test-without-protection.sh] does. *)
Definition disabled_world : World :=
  steady_world "linux" false (Some "true") (listing_only "obs") 0.

(** A standard Windows host in production: no capture tool, only system
    processes. *)
Definition plain_windows_world : World :=
  steady_world "win32" false None
    (windows_shell "System  4  svchost.exe  1012  WinLogon.exe  612  explorer.exe  3340")
    0.

(** Linux, production: the listing is just [obs]. *)
Definition obs_lower_world : World :=
  steady_world "linux" false None (listing_only "obs") 0.

(* ===================================================================== *)
(** ** Further readings of a run *)
(* ===================================================================== *)

Definition is_prompt (e : Event) : bool :=
  match e with EShowMessageBox _ => true | _ => false end.

Definition is_quit (e : Event) : bool :=
  match e with EAppQuit | ESetTimeoutQuit _ => true | _ => false end.

Definition is_permission_request (e : Event) : bool :=
  match e with EGetMediaAccessStatus | EGetSources => true | _ => false end.

(** How many events of a trace pass a test. *)
Definition count (p : Event -> bool) (evs : list Event) : nat :=
  List.length (filter p evs).

(** 1 while the scheduler holds an interval handle. *)
Definition armed (st : State) : nat :=
  match screenCaptureCheckInterval st with Some _ => 1 | None => 0 end.

(** The last start or stop request of a sequence decides: [true] after a
    start, [false] after a stop, [b] when there was neither. *)
Definition last_request (ops : list Op) (b : bool) : bool :=
  fold_left (fun acc o => match o with
                          | OpStart => true
                          | OpStop => false
                          | _ => acc
                          end) ops b.

(** The test [stdout.trim().length > 0] on the outcome of a command that
    may have failed. *)
Definition nonblank (r : option string) : bool :=
  match r with
  | Some stdout => 0 <? String.length (trim stdout)
  | None => false
  end.

(** The test of method 4 of the probe on the outcome of its command. *)
Definition console_hit (r : option string) : bool :=
  match r with
  | Some stdout =>
      0 <? List.length
             (filter (fun line => includes line "screencapture"
                                  || includes line "Screenshot")
                     (split_lines stdout))
  | None => false
  end.

(** Some character of the text is not white space. *)
Fixpoint has_visible (s : string) : bool :=
  match s with
  | EmptyString => false
  | String c s' => negb (is_space c) || has_visible s'
  end.

(** The interval of a timer is the one of the mode of the host. *)
Definition period_ok (w : World) (e : Event) : bool :=
  match e with
  | ESetInterval _ ms => ms =? (if isDevelopment w then 5000 else 2000)
  | _ => true
  end.

(** A prompt that names no process. *)
Definition anonymous_prompt (e : Event) : bool :=
  match e with
  | EShowMessageBox d => String.eqb d (alert_detail EmptyString)
  | _ => true
  end.

(** A computation that leaves the reading [f] of the state as it was. *)
Definition Preserves {A X : Type} (f : State -> X) (m : M A) : Prop :=
  forall st, f (after (m st)) = f st.

(** A host whose shell gives the same answer to a command whenever it is
    asked. *)
Definition steady_shell (w : World) (out : string -> option string) : Prop :=
  forall t cmd, exec_result w t cmd = out cmd.

(** A Windows host in production whose listings show a process named
    [winlogon_exe] and no [winlogon.exe]. *)
Definition wildcard_windows_world : World :=
  steady_world "win32" false None
    (windows_shell "svchost.exe  812  winlogon_exe  4711") 0.

(** A host whose shell prints ASCII text only. *)
Definition ascii_shell (w : World) : Prop :=
  forall t cmd s, exec_result w t cmd = Some s -> ascii_text s = true.

(** The answer of check [i] of the probe when its command is the [i]-th
    request made of the host from time [t0] on: the first eighteen checks
    look for an output that is not blank, the last one for a line of the
    console listing. *)
Definition probe_answer (w : World) (t0 i : nat) : bool :=
  let r := exec_result w (t0 + i) (nth i probe_commands EmptyString) in
  if i <? 18 then nonblank r else console_hit r.

(** Prompts and quits alternate along a trace.  [pending] says that a
    prompt is waiting for its quit: a prompt is read only when none is
    pending, a quit only when one is, and none is pending at the end. *)
Fixpoint paired_from (pending : bool) (evs : list Event) : bool :=
  match evs with
  | [] => negb pending
  | e :: rest =>
      if is_prompt e then negb pending && paired_from true rest
      else if is_quit e then pending && paired_from false rest
      else paired_from pending rest
  end.

(** Neither a prompt nor a quit. *)
Definition calm (e : Event) : bool := negb (is_prompt e) && negb (is_quit e).

(** A host whose shell fails on every command. *)
Definition shell_broken (w : World) : Prop :=
  forall t cmd, exec_result w t cmd = None.

(** Linux in production with a shell that fails on every command. *)
Definition broken_world : World :=
  steady_world "linux" false None broken_shell 0.

(** The requests that drive the detector or end the process: an operation
    of the detector, the ['app-quit'] message of the renderer, or the
    closing of the last window. *)
Inductive Request : Type :=
| Detector (o : Op)
| AppQuit              (* ipcMain.on('app-quit') *)
| WindowAllClosed.     (* app.on('window-all-closed') *)

(** The listener of ['app-quit']. *)
Definition ipc_app_quit : M unit :=
  (console_log "[Main] App quit requested" ;; emit EAppQuit)%js.

(** The listener of ['window-all-closed']. *)
Definition window_all_closed (w : World) : M unit :=
  if negb (is_darwin w) then emit EAppQuit else ret tt.

Definition serve (w : World) (r : Request) : M unit :=
  match r with
  | Detector o => step w o
  | AppQuit => ipc_app_quit
  | WindowAllClosed => window_all_closed w
  end.

Fixpoint session (w : World) (reqs : list Request) : M unit :=
  match reqs with
  | [] => ret tt
  | r :: rest => (serve w r ;; session w rest)%js
  end.

(** The requests that end the process by themselves. *)
Definition asks_to_quit (w : World) (r : Request) : bool :=
  match r with
  | Detector _ => false
  | AppQuit => true
  | WindowAllClosed => negb (is_darwin w)
  end.

(* ===================================================================== *)
(** ** The renderer hook, its state and its IPC calls *)
(* ===================================================================== *)

Module Hook.

(** What [await ipcRenderer.invoke(...)] yields. *)
Inductive Reply (A : Type) : Type :=
| Resolved (a : A)
| Rejected.
Arguments Resolved {A} a.
Arguments Rejected {A}.

(** What the hook does to the page and to the transport; the texts of the
    toasts are left out. *)
Inductive Event : Type :=
| EInvoke (channel : string)           (* ipcRenderer.invoke(channel) *)
| ELog (msg : string)                  (* console.log *)
| EWarn (msg : string)                 (* console.warn *)
| EError (msg : string)                (* console.error *)
| EToastSuccess                        (* toast.success(...) *)
| EToastError                          (* toast.error(...) *)
| EPreventDefault                      (* event.preventDefault() *)
| EStopPropagation                     (* event.stopPropagation() *)
| EPage (e : Renderer.Event).          (* an effect of handleScreenshotDetected *)

(** The state the hook keeps: the ref and the [useState] cells. *)
Record State : Type := {
  isProtectionActiveRef : bool;
  hasPermission : bool
}.

Definition initial : State :=
  {| isProtectionActiveRef := false; hasPermission := false |}.

Definition set_active (b : bool) (h : State) : State :=
  {| isProtectionActiveRef := b; hasPermission := hasPermission h |}.

Definition set_hasPermission (b : bool) (h : State) : State :=
  {| isProtectionActiveRef := isProtectionActiveRef h; hasPermission := b |}.

(** [startProtection].  [ipc] is [None] when
    [window.electron?.ipcRenderer?.invoke] is missing and otherwise holds
    what the call on ['start-screen-protection'] yields. *)
Definition startProtection (ipc : option (Reply IpcResult)) (h : State)
    : State * list Event :=
  if isProtectionActiveRef h then
    (h, [ELog "[ScreenProtection] Protection already active, skipping start"])
  else
    match ipc with
    | Some (Resolved result) =>
        if success result then
          (set_active true h,
           [ EInvoke "start-screen-protection";
             ELog "[ScreenProtection] Protection started successfully";
             EToastSuccess ])
        else
          (h, [ EInvoke "start-screen-protection";
                EError "[ScreenProtection] Failed to start protection:";
                EToastError ])
    | Some Rejected =>
        (h, [ EInvoke "start-screen-protection";
              EError "[ScreenProtection] Error starting protection:";
              EToastError ])
    | None =>
        (set_active true h,
         [EWarn "[ScreenProtection] Electron IPC not available - using browser fallback"])
    end.

(** [stopProtection], with [ipc] as for [startProtection]. *)
Definition stopProtection (ipc : option (Reply IpcResult)) (h : State)
    : State * list Event :=
  if negb (isProtectionActiveRef h) then
    (h, [ELog "[ScreenProtection] Protection already inactive, skipping stop"])
  else
    match ipc with
    | Some (Resolved result) =>
        if success result then
          (set_active false h,
           [ EInvoke "stop-screen-protection";
             ELog "[ScreenProtection] Protection stopped successfully" ])
        else
          (h, [ EInvoke "stop-screen-protection";
                EError "[ScreenProtection] Failed to stop protection:" ])
    | Some Rejected =>
        (h, [ EInvoke "stop-screen-protection";
              EError "[ScreenProtection] Error stopping protection:" ])
    | None => (set_active false h, [])
    end.

(** [requestPermission]: the answer, the new state, the events. *)
Definition requestPermission (ipc : option (Reply bool)) (h : State)
    : bool * State * list Event :=
  match ipc with
  | None => (false, h, [EWarn "[ScreenProtection] Electron IPC not available"])
  | Some (Resolved granted) =>
      (granted, set_hasPermission granted h, [EInvoke "request-screen-permission"])
  | Some Rejected =>
      (false, h, [ EInvoke "request-screen-permission";
                   EError "[ScreenProtection] Error requesting permission:" ])
  end.

(** The part of a [KeyboardEvent] the handler reads. *)
Record KeyboardEvent : Type := {
  key : string;
  metaKey : bool;
  shiftKey : bool;
  altKey : bool;
  ctrlKey : bool
}.

(** The condition of [handleKeyDown], clause by clause. *)
Definition is_screenshot_shortcut (event : KeyboardEvent) : bool :=
  (metaKey event && shiftKey event && String.eqb (key event) "3")
  || (metaKey event && shiftKey event && String.eqb (key event) "4")
  || (metaKey event && shiftKey event && String.eqb (key event) "5")
  || (metaKey event && shiftKey event && String.eqb (key event) "6")
  || String.eqb (key event) "PrintScreen"
  || (altKey event && String.eqb (key event) "PrintScreen")
  || (ctrlKey event && String.eqb (key event) "PrintScreen")
  || (ctrlKey event && shiftKey event && String.eqb (key event) "I")
  || (metaKey event && altKey event && String.eqb (key event) "I")
  || String.eqb (key event) "F12"
  || (metaKey event && String.eqb (key event) "u")
  || (ctrlKey event && String.eqb (key event) "u").

(** [handleKeyDown]: what it returns and what it does, given the answer
    the user gives to the prompt of [handleScreenshotDetected]. *)
Definition handleKeyDown (event : KeyboardEvent) (userConfirmed : bool)
    : bool * list Event :=
  if is_screenshot_shortcut event then
    (false,
     [ EPreventDefault; EStopPropagation;
       ELog ("[ScreenProtection] Screenshot shortcut detected: " ++ key event);
       EToastError ]
     ++ map EPage (Renderer.handleScreenshotDetected userConfirmed))%list
  else (true, []).

Definition is_invoke (e : Event) : bool :=
  match e with EInvoke _ => true | _ => false end.

End Hook.

(* ===================================================================== *)
(** ** The renderer and the main process together *)
(* ===================================================================== *)

Module System.

(** One hook instance and the main process it talks to, with everything
    the main process did so far. *)
Record State : Type := {
  main : Main.State;
  mainTrace : list Main.Event;
  hook : Hook.State;
  hookTrace : list Hook.Event
}.

(** What happens to the pair: a call of the hook, or the timer of the
    main process firing. *)
Inductive Action : Type :=
| CallStart          (* startProtection() *)
| CallStop           (* stopProtection() *)
| TimerFires.        (* the interval of the main process elapses *)

(** The transport: the handler of the main process runs exactly when the
    hook invokes its channel, and its result is what the call yields. *)
Definition call (handler : Main.M IpcResult)
    (caller : option (Hook.Reply IpcResult) -> Hook.State -> Hook.State * list Hook.Event)
    (s : State) : State :=
  let o := handler (main s) in
  let '(h', evs) := caller (Some (Hook.Resolved (value o))) (hook s) in
  if existsb Hook.is_invoke evs then
    {| main := after o; mainTrace := mainTrace s ++ events o;
       hook := h'; hookTrace := hookTrace s ++ evs |}
  else
    {| main := main s; mainTrace := mainTrace s;
       hook := h'; hookTrace := hookTrace s ++ evs |}.

Definition act (w : World) (a : Action) (s : State) : State :=
  match a with
  | CallStart => call (ipc_start_screen_protection w) Hook.startProtection s
  | CallStop => call ipc_stop_screen_protection Hook.stopProtection s
  | TimerFires =>
      let o := step w OpTick (main s) in
      {| main := after o; mainTrace := mainTrace s ++ events o;
         hook := hook s; hookTrace := hookTrace s |}
  end.


Definition initial (w : World) : State :=
  {| main := initial_state w; mainTrace := [];
     hook := Hook.initial; hookTrace := [] |}.


End System.

(* ===================================================================== *)
(** ** The application shell [InnerApp] and the consent modal *)
(* ===================================================================== *)

Module App.

(** [localStorage]: at most one value per key. *)
Definition Storage : Type := list (string * string).

Fixpoint getItem (k : string) (s : Storage) : option string :=
  match s with
  | [] => None
  | (k', v) :: s' => if String.eqb k' k then Some v else getItem k s'
  end.

Definition removeItem (k : string) (s : Storage) : Storage :=
  filter (fun kv => negb (String.eqb (fst kv) k)) s.

Definition setItem (k v : string) (s : Storage) : Storage :=
  (k, v) :: removeItem k s.

(** The [useState] cells of [InnerApp].  The cell [authPage] is declared
    with four names, but the handler that [InnerApp] hands to [LoginPage]
    stores whatever it is given ([setAuthPage(p as any)]), so the cell
    holds any text. *)
Record State : Type := {
  page : string;
  authPage : string;
  showPrivacyConsent : bool;
  privacyConsentGiven : bool
}.

Definition initial : State :=
  {| page := "library"; authPage := "login";
     showPrivacyConsent := true; privacyConsentGiven := false |}.

(** One of the four names [InnerApp] has a page for. *)
Definition known_auth_page (p : string) : bool :=
  String.eqb p "login" || String.eqb p "register"
  || String.eqb p "forgot" || String.eqb p "reset".

(** [onNavigate] of [LoginPage]: [(p) => setAuthPage(p as any)]. *)
Definition onNavigate (p : string) (a : State) : State :=
  {| page := page a; authPage := p;
     showPrivacyConsent := showPrivacyConsent a;
     privacyConsentGiven := privacyConsentGiven a |}.

(** [onBack] of the three other pages: [() => setAuthPage('login')]. *)
Definition onBack (a : State) : State :=
  {| page := page a; authPage := "login";
     showPrivacyConsent := showPrivacyConsent a;
     privacyConsentGiven := privacyConsentGiven a |}.

Definition consent_key : string := "privacy-consent-given".
Definition consent_date_key : string := "privacy-consent-date".

(** The effect that runs once when [InnerApp] mounts. *)
Definition consent_effect (s : Storage) (a : State) : Storage * State :=
  let s1 := removeItem consent_key s in
  let consentGiven := getItem consent_key s1 in
  match consentGiven with
  | Some v =>
      if String.eqb v "true" then
        (s1, {| page := page a; authPage := authPage a;
                showPrivacyConsent := false; privacyConsentGiven := true |})
      else (s1, a)
  | None => (s1, a)
  end.

(** [handlePrivacyConsent]; [can_send] says whether
    [window.electron?.ipcRenderer?.send] exists, [now] is
    [new Date().toISOString()].  The result holds the channels it sent
    on. *)
Definition handlePrivacyConsent (granted can_send : bool) (now : string)
    (s : Storage) (a : State) : Storage * State * list string :=
  let a' := {| page := page a; authPage := authPage a;
               showPrivacyConsent := false; privacyConsentGiven := granted |} in
  if granted then
    (setItem consent_date_key now (setItem consent_key "true" s), a', [])
  else
    (setItem consent_key "false" s, a',
     if can_send then ["app-quit"] else []).

(** The body of the effect that follows authentication and consent. *)
Definition protection_effect (isAuthenticated : bool) (a : State) : System.Action :=
  if isAuthenticated && privacyConsentGiven a then System.CallStart
  else System.CallStop.

Inductive Content : Type := LibraryPage | MyListPage | MyCloudPage | ProfilePage.

(** What [InnerApp] renders.  With no authenticated user the four known
    names of [authPage] give their page; any other value falls through to
    the layout. *)
Inductive View : Type :=
| VLoading
| VConsentModal
| VLoginPage
| VRegisterPage
| VForgotPasswordPage
| VResetPasswordPage
| VLayout (content : option Content) (isProtected : bool).

Definition render (loading isAuthenticated : bool) (a : State) : View :=
  if loading then VLoading else
  if showPrivacyConsent a then VConsentModal else
  let layout :=
    VLayout (if String.eqb (page a) "library" then Some LibraryPage
             else if String.eqb (page a) "mylist" then Some MyListPage
             else if String.eqb (page a) "mycloud" then Some MyCloudPage
             else if String.eqb (page a) "profile" then Some ProfilePage
             else None)
            isAuthenticated in
  if negb isAuthenticated then
    if String.eqb (authPage a) "login" then VLoginPage
    else if String.eqb (authPage a) "register" then VRegisterPage
    else if String.eqb (authPage a) "forgot" then VForgotPasswordPage
    else if String.eqb (authPage a) "reset" then VResetPasswordPage
    else layout
  else layout.

End App.

Module Modal.

(** The [useState] cells of [PrivacyConsentModal]. *)
Record State : Type := {
  isRequestingPermission : bool;
  permissionError : option string;
  permissionRequested : bool
}.

Inductive Event : Type :=
| EToastSuccess
| EToastError
| ELog (msg : string)
| EError (msg : string).

Definition denied_message : string :=
  "Screen recording permission was denied. Some security features may not work properly.".

Definition error_message : string :=
  "Error requesting permission. Please try again.".

(** [requestScreenPermission], given what [await requestPermission()]
    yields. *)
Definition requestScreenPermission (result : Hook.Reply bool) (m : State)
    : State * list Event :=
  match result with
  | Hook.Resolved granted =>
      if granted then
        ({| isRequestingPermission := false; permissionError := None;
            permissionRequested := true |},
         [ EToastSuccess;
           ELog "[PrivacyConsent] Screen recording permission granted" ])
      else
        ({| isRequestingPermission := false; permissionError := Some denied_message;
            permissionRequested := true |},
         [ EToastError ])
  | Hook.Rejected =>
      ({| isRequestingPermission := false; permissionError := Some error_message;
          permissionRequested := permissionRequested m |},
       [ EError "[PrivacyConsent] Error requesting permission:"; EToastError ])
  end.

(** The button that opens the modal's permission request, wired to the
    hook: the hook's [requestPermission] always returns. *)
Definition click_grant (ipc : option (Hook.Reply bool)) (h : Hook.State) (m : State)
    : Hook.State * State * list Event :=
  let '(granted, h', _) := Hook.requestPermission ipc h in
  let '(m', evs) := requestScreenPermission (Hook.Resolved granted) m in
  (h', m', evs).

(** [disabled={isMacOS && !hasPermission}] of the accept button. *)
Definition accept_disabled (platform : option string) (h : Hook.State) : bool :=
  match platform with
  | Some p => String.eqb p "darwin" && negb (Hook.hasPermission h)
  | None => false
  end.

End Modal.

(** The two [grep] pipelines of the probe, by name. *)
Definition ps_grep_command : string := "ps aux | grep -i screenshot | grep -v grep".
Definition lsof_console_command : string := "lsof /dev/console 2>/dev/null || true".

Definition keka_shell (cmd : string) : option string :=
  if String.eqb cmd (pgrep_command "Keka") then Some "4242" else None.

(** A Mac in production where only the archiver Keka is running. *)
Definition keka_mac_world : World :=
  steady_world "darwin" false None keka_shell 0.

(** A Windows host in production where only the Sync Center,
    [mobsync.exe], is running next to the system processes. *)
Definition mobsync_world : World :=
  steady_world "win32" false None
    (listing_only "System  4  mobsync.exe  2212  explorer.exe  3340") 0.

(* ===================================================================== *)
(** ** Facts about the text primitives *)
(* ===================================================================== *)

Example toLowerCase_ex : toLowerCase "OBS64.exe  Console" = "obs64.exe  console".
Proof. reflexivity. Qed.

Example includes_ex : includes "svchost.exe obs64.exe" "obs" = true.
Proof. reflexivity. Qed.

Example trim_ex : trim (String newline "  12 34 " ++ String newline "") = "12 34".
Proof. reflexivity. Qed.

Example split_lines_ex :
  split_lines ("ab" ++ String newline "cd" ++ String newline "")
  = ["ab"; "cd"; EmptyString].
Proof. reflexivity. Qed.

Example regex_ex : regex_test_i "winlogon.exe" "x winlogonZexe 612" = true.
Proof. reflexivity. Qed.

Lemma append_nil_r (s : string) : s ++ EmptyString = s.
Proof. induction s as [|c s IH]; simpl; [reflexivity | now rewrite IH]. Qed.

Lemma append_assoc (a b c : string) : (a ++ b) ++ c = a ++ b ++ c.
Proof. induction a as [|x a IH]; simpl; [reflexivity | now rewrite IH]. Qed.

Lemma startsWith_iff (s p : string) :
  startsWith s p = true <-> exists b, s = p ++ b.
Proof.
  revert s; induction p as [|a p IH]; intros s; simpl.
  - split; [intros _; now exists s | reflexivity].
  - destruct s as [|b s].
    + split; [discriminate | intros [r Hr]; discriminate].
    + rewrite andb_true_iff, Ascii.eqb_eq, IH. split.
      * intros [-> [r ->]]. now exists r.
      * intros [r Hr]. injection Hr as -> ->. split; [reflexivity | now exists r].
Qed.

Lemma includes_iff (s p : string) :
  includes s p = true <-> Substring p s.
Proof.
  unfold Substring. induction s as [|c s IH].
  - simpl. rewrite orb_false_r, startsWith_iff. split.
    + intros [b Hb]. now exists EmptyString, b.
    + intros [a [b Hab]]. destruct a; simpl in Hab; [now exists b | discriminate].
  - cbn [includes]. rewrite orb_true_iff, startsWith_iff, IH. split.
    + intros [[b Hb] | [a [b Hab]]].
      * now exists EmptyString, b.
      * exists (String c a), b. simpl. now rewrite Hab.
    + intros [a [b Hab]]. destruct a as [|x a]; simpl in Hab.
      * left. now exists b.
      * right. injection Hab as _ Hs. now exists a, b.
Qed.

Lemma toLowerCase_app (a b : string) :
  toLowerCase (a ++ b) = toLowerCase a ++ toLowerCase b.
Proof. induction a as [|c a IH]; simpl; [reflexivity | now rewrite IH]. Qed.

Lemma toLowerCase_split (s x y : string) :
  toLowerCase s = x ++ y ->
  exists a b, s = a ++ b /\ toLowerCase a = x /\ toLowerCase b = y.
Proof.
  revert s; induction x as [|c x IH]; intros s H; simpl in H.
  - now exists EmptyString, s.
  - destruct s as [|d s]; simpl in H; [discriminate |].
    injection H as Hc Hs. destruct (IH _ Hs) as [a [b [-> [Ha Hb]]]].
    exists (String d a), b. simpl. now rewrite Hc, Ha, Hb.
Qed.

(** What the scanner computes, [lowered listing includes signature], is
    the case-insensitive occurrence of a signature written in lower
    case. *)
Lemma includes_lowered_iff (P sig : string) :
  lower_case sig ->
  (includes (toLowerCase P) sig = true <-> CaseInsensitiveSubstring sig P).
Proof.
  unfold lower_case, CaseInsensitiveSubstring. intros Hsig.
  rewrite includes_iff. unfold Substring. split.
  - intros [a' [b' H]].
    destruct (toLowerCase_split _ _ _ H) as [a [r [-> [Ha Hr]]]].
    destruct (toLowerCase_split _ _ _ Hr) as [m [b [-> [Hm Hb]]]].
    exists a, m, b. split; [reflexivity | congruence].
  - intros [a [m [b [-> Hm]]]].
    exists (toLowerCase a), (toLowerCase b).
    rewrite !toLowerCase_app. congruence.
Qed.

Lemma truthy_nonempty (s : string) : s <> EmptyString -> truthy s = true.
Proof. destruct s; [congruence | reflexivity]. Qed.

(* ===================================================================== *)
(** ** Reasoning about computations *)
(* ===================================================================== *)

Lemma value_bind {A B : Type} (m : M A) (k : A -> M B) (st : State) :
  value (bind m k st) = value (k (value (m st)) (after (m st))).
Proof. reflexivity. Qed.

Lemma after_bind {A B : Type} (m : M A) (k : A -> M B) (st : State) :
  after (bind m k st) = after (k (value (m st)) (after (m st))).
Proof. reflexivity. Qed.

Lemma events_bind {A B : Type} (m : M A) (k : A -> M B) (st : State) :
  events (bind m k st)
  = (events (m st) ++ events (k (value (m st)) (after (m st))))%list.
Proof. reflexivity. Qed.

Lemma execAsync_value (w : World) (cmd : string) (st : State) :
  value (execAsync w cmd st) = exec_result w (clock st) cmd.
Proof. reflexivity. Qed.

Lemma execAsync_after (w : World) (cmd : string) (st : State) :
  after (execAsync w cmd st) = tick_clock st.
Proof. reflexivity. Qed.

Lemma execAsync_events (w : World) (cmd : string) (st : State) :
  events (execAsync w cmd st) = [EExec cmd].
Proof. reflexivity. Qed.

Lemma exec_calls_app (a b : list Event) :
  exec_calls (a ++ b)%list = (exec_calls a ++ exec_calls b)%list.
Proof.
  induction a as [|e a IH]; simpl; [reflexivity |].
  destruct e; simpl; now rewrite IH.
Qed.

(** Case analysis on the test of the first conditional of the goal. *)
Ltac split_if :=
  match goal with
  | |- context [if ?b then _ else _] => destruct b eqn:?
  | |- context [match ?x with Some _ => _ | None => _ end] => destruct x eqn:?
  end.

(** *** Computations that only look *)

Lemma frame_refl (st : State) : frame st st.
Proof. repeat split. Qed.

Lemma frame_trans (a b c : State) : frame a b -> frame b c -> frame a c.
Proof.
  unfold frame. intros (H1 & H2 & H3 & H4 & H5 & H6) (K1 & K2 & K3 & K4 & K5 & K6).
  repeat split; congruence.
Qed.

Lemma Quiet_ret {A : Type} (a : A) : Quiet (ret a).
Proof. intros st. split; [apply frame_refl | reflexivity]. Qed.

Lemma Quiet_get : Quiet get.
Proof. intros st. split; [apply frame_refl | reflexivity]. Qed.

Lemma Quiet_bind {A B : Type} (m : M A) (k : A -> M B) :
  Quiet m -> (forall a, Quiet (k a)) -> Quiet (bind m k).
Proof.
  intros Hm Hk st. unfold bind; cbn [after events].
  destruct (Hm st) as [F1 P1]. destruct (Hk (value (m st)) (after (m st))) as [F2 P2].
  split; [eapply frame_trans; eassumption |].
  rewrite forallb_app, P1, P2. reflexivity.
Qed.

Lemma Quiet_console_log (msg : string) : Quiet (console_log msg).
Proof. intros st. split; [apply frame_refl | reflexivity]. Qed.

Lemma Quiet_console_error (msg : string) : Quiet (console_error msg).
Proof. intros st. split; [apply frame_refl | reflexivity]. Qed.

Lemma Quiet_set_detectedProcess (d : string) : Quiet (modify (set_detectedProcess d)).
Proof. intros st. split; [repeat split | reflexivity]. Qed.

Lemma Quiet_execAsync (w : World) (cmd : string) : Quiet (execAsync w cmd).
Proof. intros st. split; [repeat split | reflexivity]. Qed.

Lemma Quiet_getMediaAccessStatus (w : World) : Quiet (getMediaAccessStatus w).
Proof. intros st. split; [repeat split | reflexivity]. Qed.

Lemma Quiet_getSources (w : World) : Quiet (getSources w).
Proof. intros st. split; [repeat split | reflexivity]. Qed.

Create HintDb quiet.
#[export] Hint Resolve Quiet_ret Quiet_get Quiet_console_log Quiet_console_error
  Quiet_set_detectedProcess Quiet_execAsync Quiet_getMediaAccessStatus
  Quiet_getSources : quiet.

(** Walks down a computation built from binds and conditionals. *)
Ltac quiet :=
  repeat first
    [ progress auto with quiet
    | apply Quiet_bind; [|intro]
    | match goal with
      | |- Quiet (if ?b then _ else _) => destruct b
      | |- Quiet (match ?x with Some _ => _ | None => _ end) => destruct x
      end ].

Lemma Quiet_checkSpecificProcesses (w : World) (S : list string) :
  Quiet (checkSpecificProcesses w S).
Proof. unfold checkSpecificProcesses. quiet. Qed.

Lemma Quiet_checkSuspiciousProcesses (w : World) : Quiet (checkSuspiciousProcesses w).
Proof. unfold checkSuspiciousProcesses. quiet. Qed.

Lemma Quiet_pgrep_loop (w : World) (names : list string) : Quiet (pgrep_loop w names).
Proof.
  induction names as [|n names IH]; cbn [pgrep_loop]; quiet.
Qed.

Lemma Quiet_detectMacOSScreenCapture (w : World) : Quiet (detectMacOSScreenCapture w).
Proof.
  unfold detectMacOSScreenCapture.
  apply Quiet_bind; [apply Quiet_pgrep_loop | intro]. quiet.
Qed.

Lemma Quiet_detectWindowsScreenCapture (w : World) :
  Quiet (detectWindowsScreenCapture w).
Proof. unfold detectWindowsScreenCapture. quiet. Qed.

#[export] Hint Resolve Quiet_checkSpecificProcesses Quiet_checkSuspiciousProcesses
  Quiet_detectMacOSScreenCapture Quiet_detectWindowsScreenCapture : quiet.

Lemma Quiet_detectScreenCapture (w : World) : Quiet (detectScreenCapture w).
Proof. unfold detectScreenCapture. quiet. Qed.

Lemma Quiet_checkPermission (w : World) : Quiet (ipc_check_screen_permission w).
Proof.
  unfold ipc_check_screen_permission, checkMacOSScreenRecordingPermission. quiet.
Qed.

Lemma Quiet_requestPermission (w : World) : Quiet (ipc_request_screen_permission w).
Proof.
  unfold ipc_request_screen_permission, requestMacOSScreenRecordingPermission. quiet.
Qed.

(** *** Computations whose events all pass a test *)

Lemma Emits_ret {A : Type} (ok : Event -> bool) (a : A) : Emits ok (ret a).
Proof. intros st. reflexivity. Qed.

Lemma Emits_get (ok : Event -> bool) : Emits ok get.
Proof. intros st. reflexivity. Qed.

Lemma Emits_modify (ok : Event -> bool) (f : State -> State) : Emits ok (modify f).
Proof. intros st. reflexivity. Qed.

Lemma Emits_emit (ok : Event -> bool) (e : Event) : ok e = true -> Emits ok (emit e).
Proof. intros H st. cbn. now rewrite H. Qed.

Lemma Emits_bind {A B : Type} (ok : Event -> bool) (m : M A) (k : A -> M B) :
  Emits ok m -> (forall a, Emits ok (k a)) -> Emits ok (bind m k).
Proof.
  intros Hm Hk st. unfold bind; cbn [events].
  now rewrite forallb_app, Hm, Hk.
Qed.

Lemma Quiet_Emits {A : Type} (ok : Event -> bool) (m : M A) :
  (forall e, plain e = true -> ok e = true) -> Quiet m -> Emits ok m.
Proof.
  intros Hok Hq st. destruct (Hq st) as [_ Hp].
  rewrite forallb_forall in *. intros e He. apply Hok, Hp, He.
Qed.

(** Walks down a computation to its primitive effects. *)
Ltac emits :=
  repeat first
    [ apply Emits_ret | apply Emits_get | apply Emits_modify
    | apply Emits_emit; reflexivity
    | match goal with
      | |- Emits _ (if ?b then _ else _) => destruct b
      | |- Emits _ (match ?x with Some _ => _ | None => _ end) => destruct x
      end
    | apply Emits_bind; [|intro] ].

(* ===================================================================== *)
(** ** Process scanner *)
(* ===================================================================== *)

Lemma checkSpecificProcesses_value (w : World) (S : list string) (st : State) :
  value (checkSpecificProcesses w S st) =
  match exec_result w (clock st) (listing_command w) with
  | Some out =>
      match find (fun proc => includes (toLowerCase out) proc) S with
      | Some d => truthy d
      | None => false
      end
  | None => false
  end.
Proof.
  unfold checkSpecificProcesses, bind; simpl.
  destruct (exec_result w (clock st) (listing_command w)) as [out|]; [|reflexivity].
  destruct (find _ S) as [d|]; [|reflexivity].
  destruct (truthy d); reflexivity.
Qed.

Lemma checkSuspiciousProcesses_value (w : World) (st : State) :
  value (checkSuspiciousProcesses w st) =
  match exec_result w (clock st) (listing_command w) with
  | Some out =>
      existsb (fun proc => includes (toLowerCase out) proc) (suspiciousProcesses st)
  | None => false
  end.
Proof.
  unfold checkSuspiciousProcesses, bind; simpl.
  destruct (exec_result w (clock st) (listing_command w)) as [out|]; reflexivity.
Qed.

(** On non-empty signatures, [find] followed by the truthiness test and
    [some] agree. *)
Lemma find_truthy_iff (f : string -> bool) (S : list string) :
  (forall s, In s S -> s <> EmptyString) ->
  (match find f S with Some d => truthy d | None => false end = true
   <-> exists s, In s S /\ f s = true).
Proof.
  intros Hne. destruct (find f S) as [d|] eqn:Hf.
  - apply find_some in Hf. destruct Hf as [Hin Hd]. split.
    + intros _. now exists d.
    + intros _. apply truthy_nonempty. now apply Hne.
  - split; [discriminate |]. intros [s [Hin Hs]].
    rewrite (find_none _ _ Hf s Hin) in Hs. discriminate.
Qed.

(** C1, as amended.  For every set [S] of lower-case ASCII signatures and
    every outcome of the process-listing command: when the command prints
    an ASCII text [P], [checkSuspiciousProcesses] (on an instance whose
    list is [S]) returns true exactly when some signature of [S] is a
    case-insensitive substring of [P], and so does
    [checkSpecificProcesses S] when no signature of [S] is empty; when the
    command fails both return false. *)
Theorem scan_iff_lower_case_signature
    (w : World) (st : State) (S : list string)
    (Hfield : suspiciousProcesses st = S)
    (Hascii : forall s, In s S -> ascii_text s = true)
    (Hlower : forall s, In s S -> lower_case s)
    (Hlisting : forall P, exec_result w (clock st) (listing_command w) = Some P ->
                          ascii_text P = true) :
  match exec_result w (clock st) (listing_command w) with
  | Some P =>
      (value (checkSuspiciousProcesses w st) = true
       <-> exists s, In s S /\ CaseInsensitiveSubstring s P)
      /\ ((forall s, In s S -> s <> EmptyString) ->
          (value (checkSpecificProcesses w S st) = true
           <-> exists s, In s S /\ CaseInsensitiveSubstring s P))
  | None =>
      value (checkSuspiciousProcesses w st) = false
      /\ value (checkSpecificProcesses w S st) = false
  end.
Proof.
  rewrite checkSuspiciousProcesses_value, checkSpecificProcesses_value, Hfield.
  destruct (exec_result w (clock st) (listing_command w)) as [P|]; [|now split].
  assert (Hex : forall s, In s S ->
            (includes (toLowerCase P) s = true <-> CaseInsensitiveSubstring s P)).
  { intros s Hs. apply includes_lowered_iff. now apply Hlower. }
  split.
  - rewrite existsb_exists. split; intros [s [Hin Hs]]; exists s; split; trivial;
      now apply (Hex s Hin).
  - intros Hne. rewrite (find_truthy_iff _ S Hne).
    split; intros [s [Hin Hs]]; exists s; split; trivial; now apply (Hex s Hin).
Qed.

(** The production signature list on a host whose listing shows OBS in
    upper case. *)
Lemma scan_iff_lower_case_signature_witness :
  (value (checkSuspiciousProcesses obs_upper_world (initial_state obs_upper_world)) = true
   <-> exists s, In s (suspiciousProcesses (initial_state obs_upper_world))
                 /\ CaseInsensitiveSubstring s "OBS64.EXE  4242 Console")
  /\ ((forall s, In s (suspiciousProcesses (initial_state obs_upper_world)) ->
                 s <> EmptyString) ->
      (value (checkSpecificProcesses obs_upper_world
                (suspiciousProcesses (initial_state obs_upper_world))
                (initial_state obs_upper_world)) = true
       <-> exists s, In s (suspiciousProcesses (initial_state obs_upper_world))
                     /\ CaseInsensitiveSubstring s "OBS64.EXE  4242 Console")).
Proof.
  apply (scan_iff_lower_case_signature obs_upper_world (initial_state obs_upper_world)
           (suspiciousProcesses (initial_state obs_upper_world)) eq_refl).
  - intros s Hs. simpl in Hs.
    repeat (destruct Hs as [<- | Hs]; [reflexivity |]). contradiction.
  - intros s Hs. simpl in Hs.
    repeat (destruct Hs as [<- | Hs]; [reflexivity |]). contradiction.
  - intros P HP. cbv in HP. injection HP as <-. reflexivity.
Defined.

(** C1, counterexample.  With the signature ["OBS"] and the listing
    ["obs"], the signature is a case-insensitive substring of the listing
    and the scan answers false: only the listing is put in lower case. *)
Lemma scan_upper_case_signature_missed :
  exec_result obs_lower_world (clock (initial_state obs_lower_world))
              (listing_command obs_lower_world) = Some "obs"
  /\ CaseInsensitiveSubstring "OBS" "obs"
  /\ value (checkSpecificProcesses obs_lower_world ["OBS"]
              (initial_state obs_lower_world)) = false.
Proof.
  split; [reflexivity |]. split; [|reflexivity].
  exists EmptyString, "obs", EmptyString. split; reflexivity.
Qed.

(* ===================================================================== *)
(** ** One detection pass *)
(* ===================================================================== *)

Lemma checkSpecificProcesses_calls (w : World) (S : list string) (st : State) :
  exec_calls (events (checkSpecificProcesses w S st)) = [listing_command w].
Proof.
  unfold checkSpecificProcesses, bind; simpl. repeat split_if; reflexivity.
Qed.

Lemma checkSpecificProcesses_dev (w : World) (S : list string) (st : State) :
  developmentMode (after (checkSpecificProcesses w S st)) = developmentMode st.
Proof.
  unfold checkSpecificProcesses, bind; simpl. repeat split_if; reflexivity.
Qed.

Lemma checkSuspiciousProcesses_calls (w : World) (st : State) :
  exec_calls (events (checkSuspiciousProcesses w st)) = [listing_command w].
Proof.
  unfold checkSuspiciousProcesses, bind; simpl. repeat split_if; reflexivity.
Qed.

Lemma detectWindowsScreenCapture_calls (w : World) (st : State) :
  exec_calls (events (detectWindowsScreenCapture w st)) = [wmic_command].
Proof.
  unfold detectWindowsScreenCapture, bind; simpl. repeat split_if; reflexivity.
Qed.

Lemma pgrep_loop_dev (w : World) (names : list string) (st : State) :
  developmentMode (after (pgrep_loop w names st)) = developmentMode st.
Proof.
  destruct (Quiet_pgrep_loop w names st) as [(_ & F & _) _]. exact F.
Qed.

Lemma pgrep_loop_calls (w : World) (names : list string) (st : State) (cmd : string) :
  In cmd (exec_calls (events (pgrep_loop w names st))) ->
  In cmd (map pgrep_command names).
Proof.
  revert st; induction names as [|n names IH]; intros st; [intros [] |].
  cbn [pgrep_loop map]. rewrite events_bind, exec_calls_app, execAsync_events.
  cbn [exec_calls app]. intros [H | H]; [now left | right].
  revert H. rewrite execAsync_value, execAsync_after.
  destruct (exec_result w (clock st) (pgrep_command n)) as [out|]; [|apply IH].
  destruct (0 <? String.length (trim out)); [intros [] | apply IH].
Qed.

Lemma detectMacOSScreenCapture_dev (w : World) (st : State) :
  developmentMode (after (detectMacOSScreenCapture w st)) = developmentMode st.
Proof.
  destruct (Quiet_detectMacOSScreenCapture w st) as [(_ & F & _) _]. exact F.
Qed.

Lemma detectMacOSScreenCapture_calls (w : World) (st : State) (cmd : string) :
  In cmd (exec_calls (events (detectMacOSScreenCapture w st))) ->
  In cmd probe_commands.
Proof.
  unfold detectMacOSScreenCapture. rewrite events_bind, exec_calls_app, in_app_iff.
  intros [H | H].
  - unfold probe_commands. apply in_or_app. left. now apply pgrep_loop_calls in H.
  - assert (Hall : forall (m : M bool) (s : State),
              Emits (fun e => match e with
                              | EExec c => existsb (String.eqb c) probe_commands
                              | _ => true
                              end) m ->
              In cmd (exec_calls (events (m s))) -> In cmd probe_commands).
    { intros m s Hm. specialize (Hm s). revert Hm.
      induction (events (m s)) as [|e evs IH]; [intros _ [] |].
      cbn [forallb]. rewrite andb_true_iff. intros [He Hevs].
      destruct e; cbn [exec_calls]; try (now apply IH).
      intros [<- | Hin]; [|now apply IH].
      apply existsb_exists in He. destruct He as [c [Hc Heq]].
      apply String.eqb_eq in Heq. now subst. }
    revert H. apply Hall.
    destruct (value (pgrep_loop w screenRecordingProcesses st)); [apply Emits_ret |].
    unfold execAsync. emits.
Qed.

(** None of the probe's commands is a process listing or the Windows
    query. *)
Lemma probe_commands_apart (w : World) (cmd : string) :
  In cmd probe_commands -> cmd <> listing_command w /\ cmd <> wmic_command.
Proof.
  intros H.
  assert (Hall : forallb (fun c => negb (String.eqb c "tasklist")
                                   && negb (String.eqb c "ps aux")
                                   && negb (String.eqb c wmic_command))
                         probe_commands = true) by reflexivity.
  rewrite forallb_forall in Hall. specialize (Hall cmd H).
  rewrite !andb_true_iff, !negb_true_iff, !String.eqb_neq in Hall.
  destruct Hall as [[H1 H2] H3]. split; [|assumption].
  unfold listing_command. destruct (is_win32 w); assumption.
Qed.

(** The pass in terms of its four checks, each run in the state the
    previous one leaves: its value ... *)
Lemma detectScreenCapture_value (w : World) (st : State) :
  let c := checkSpecificProcesses w criticalProcesses st in
  let p := (if is_darwin w then detectMacOSScreenCapture w else ret false) (after c) in
  let s := checkSuspiciousProcesses w (after p) in
  let x := detectWindowsScreenCapture w (after s) in
  value (detectScreenCapture w st) =
    value c || value p
    || (negb (developmentMode (after p)) && (value s || (is_win32 w && value x))).
Proof.
  intros c p s x. unfold detectScreenCapture, bind.
  fold c. cbn [value after events].
  destruct (value c) eqn:Hc; [reflexivity |].
  cbn [value after events]. fold p.
  destruct (value p) eqn:Hp; [reflexivity |].
  cbn [value after events get orb].
  destruct (developmentMode (after p)) eqn:Hd; [reflexivity |].
  cbn [value after events negb andb]. fold s.
  destruct (value s) eqn:Hs; [reflexivity |].
  cbn [value after events orb]. fold x.
  destruct (is_win32 w); reflexivity.
Qed.

(** ... and its shell commands, in order. *)
Lemma detectScreenCapture_calls (w : World) (st : State) :
  let c := checkSpecificProcesses w criticalProcesses st in
  let p := (if is_darwin w then detectMacOSScreenCapture w else ret false) (after c) in
  let s := checkSuspiciousProcesses w (after p) in
  exec_calls (events (detectScreenCapture w st)) =
    (listing_command w ::
     if value c then [] else
       exec_calls (events p) ++
       if value p || developmentMode (after p) then [] else
         listing_command w ::
         if value s || negb (is_win32 w) then [] else [wmic_command])%list.
Proof.
  intros c p s. unfold detectScreenCapture, bind.
  fold c. cbn [value after events].
  rewrite exec_calls_app. unfold c at 1. rewrite checkSpecificProcesses_calls. fold c.
  cbn [app]. f_equal.
  destruct (value c) eqn:Hc; [reflexivity |].
  cbn [value after events]. fold p. rewrite exec_calls_app. f_equal.
  destruct (value p) eqn:Hp; [reflexivity |].
  cbn [value after events get orb].
  destruct (developmentMode (after p)) eqn:Hd; [reflexivity |].
  cbn [value after events app]. fold s.
  rewrite exec_calls_app. unfold s at 1. rewrite checkSuspiciousProcesses_calls. fold s.
  cbn [app]. f_equal.
  destruct (value s) eqn:Hs; [reflexivity |].
  cbn [orb]. destruct (is_win32 w); cbn [negb].
  - apply detectWindowsScreenCapture_calls.
  - reflexivity.
Qed.

Lemma probe_step_dev (w : World) (st : State) :
  developmentMode
    (after ((if is_darwin w then detectMacOSScreenCapture w else ret false) st))
  = developmentMode st.
Proof. destruct (is_darwin w); [apply detectMacOSScreenCapture_dev | reflexivity]. Qed.

(** A listing that shows [obs] makes the critical check answer true. *)
Lemma critical_check_obs (w : World) (st : State) (P : string) :
  exec_result w (clock st) (listing_command w) = Some P ->
  CaseInsensitiveSubstring "obs" P ->
  value (checkSpecificProcesses w criticalProcesses st) = true.
Proof.
  intros HP Hobs. rewrite checkSpecificProcesses_value, HP.
  apply (find_truthy_iff _ criticalProcesses).
  - intros s Hs. simpl in Hs.
    repeat (destruct Hs as [<- | Hs]; [discriminate |]). contradiction.
  - exists "obs". split; [now left |].
    apply includes_lowered_iff; [reflexivity | assumption].
Qed.

Lemma pgrep_loop_first_call (w : World) (p : string) (rest : list string)
    (st : State) :
  exists tail,
    exec_calls (events (pgrep_loop w (p :: rest) st)) = pgrep_command p :: tail.
Proof.
  cbn [pgrep_loop]. rewrite events_bind, exec_calls_app, execAsync_events.
  eexists. reflexivity.
Qed.

Lemma detectMacOSScreenCapture_first_call (w : World) (st : State) :
  exists rest,
    exec_calls (events (detectMacOSScreenCapture w st))
    = pgrep_command "screencapture" :: rest.
Proof.
  unfold detectMacOSScreenCapture. rewrite events_bind, exec_calls_app.
  destruct (pgrep_loop_first_call w "screencapture"
              (List.tl screenRecordingProcesses) st) as [tail Ht].
  assert (E : "screencapture" :: List.tl screenRecordingProcesses
              = screenRecordingProcesses) by reflexivity.
  rewrite E in Ht. rewrite Ht. cbn [app]. eexists. reflexivity.
Qed.

(** C2.  The order of the checks of a detection pass, read off the shell
    commands it issues, and its short-circuiting.
    (a) In every mode and on every platform the pass starts with the
        process listing of the critical-signature check, and a hit there
        ends the pass with true after that single command.
    (b) On darwin the probe runs next, in every mode (its commands follow
        the listing, starting with the first [pgrep]), and a hit ends the
        pass with true; elsewhere no probe command is issued.
    (c) In development mode nothing else is run and the pass answers
        false; outside development mode the full scan lists the processes
        a second time, a hit ends the pass, and the Windows query is issued
        only on win32, its answer being the answer of the pass.
    (d) A listing that shows the critical signature [obs], in any case of
        the letters, makes the pass answer true in every mode. *)
Theorem detection_pass_order (w : World) (st : State) :
  let pass := detectScreenCapture w st in
  let calls := exec_calls (events pass) in
  let c := checkSpecificProcesses w criticalProcesses st in
  let p := detectMacOSScreenCapture w (after c) in
  let probe_calls := if is_darwin w then exec_calls (events p) else [] in
  let probe_hit := is_darwin w && value p in
  let s := checkSuspiciousProcesses w (if is_darwin w then after p else after c) in
  let x := detectWindowsScreenCapture w (after s) in
  (exists rest, calls = listing_command w :: rest)
  /\ (value c = true -> value pass = true /\ calls = [listing_command w])
  /\ (value c = false ->
      exists rest, calls = (listing_command w :: probe_calls ++ rest)%list)
  /\ (is_darwin w = true ->
      exists rest, probe_calls = pgrep_command "screencapture" :: rest)
  /\ (forall cmd, In cmd probe_calls ->
      cmd <> listing_command w /\ cmd <> wmic_command)
  /\ (value c = false -> probe_hit = true ->
      value pass = true /\ calls = listing_command w :: probe_calls)
  /\ (value c = false -> probe_hit = false -> developmentMode st = true ->
      value pass = false /\ calls = listing_command w :: probe_calls)
  /\ (value c = false -> probe_hit = false -> developmentMode st = false ->
      value pass = value s || (is_win32 w && value x)
      /\ calls = (listing_command w :: probe_calls ++ listing_command w ::
                  (if value s then [] else
                   if is_win32 w then [wmic_command] else []))%list)
  /\ (forall P, exec_result w (clock st) (listing_command w) = Some P ->
      CaseInsensitiveSubstring "obs" P -> value pass = true).
Proof.
  intros pass calls c p probe_calls probe_hit s x.
  pose proof (detectScreenCapture_value w st) as Hv.
  pose proof (detectScreenCapture_calls w st) as Hc.
  cbv zeta in Hv, Hc. fold c pass in Hv, Hc. fold calls in Hc.
  assert (Hdev : developmentMode
            (after ((if is_darwin w then detectMacOSScreenCapture w else ret false)
                      (after c))) = developmentMode st).
  { rewrite probe_step_dev. apply checkSpecificProcesses_dev. }
  rewrite Hdev in Hv, Hc. clear Hdev.
  assert (Hapart : forall cmd, In cmd probe_calls ->
            cmd <> listing_command w /\ cmd <> wmic_command).
  { intros cmd Hin. apply probe_commands_apart. unfold probe_calls in Hin.
    destruct (is_darwin w); [|destruct Hin].
    now apply detectMacOSScreenCapture_calls in Hin. }
  assert (Hfirst : is_darwin w = true ->
            exists rest, probe_calls = pgrep_command "screencapture" :: rest).
  { intros Hd. unfold probe_calls. rewrite Hd.
    apply detectMacOSScreenCapture_first_call. }
  assert (Hobs : forall P, exec_result w (clock st) (listing_command w) = Some P ->
            CaseInsensitiveSubstring "obs" P -> value pass = true).
  { intros P HP Hin. rewrite Hv. fold c.
    unfold c. now rewrite (critical_check_obs w st P HP Hin). }
  subst probe_calls probe_hit s x. cbv beta in *.
  refine (conj _ (conj _ (conj _ (conj Hfirst (conj Hapart
            (conj _ (conj _ (conj _ Hobs)))))))); clear Hobs Hapart Hfirst.
  all: destruct (is_darwin w) eqn:Hdarwin; cbn [andb] in *; fold p in Hv, Hc;
    cbn [ret value after events exec_calls app] in Hv, Hc;
    try rewrite Hv; try rewrite Hc; clear Hv Hc.
  all: intros;
    repeat match goal with
           | H : _ = true |- _ => rewrite H; clear H
           | H : _ = false |- _ => try discriminate H; rewrite H; clear H
           end;
    cbn [orb andb negb app].
  all: try (eexists; reflexivity).
  all: try (split; reflexivity).
  all: rewrite ?app_nil_r; split; try reflexivity.
  all: repeat f_equal;
    match goal with
    | |- context [value ?r || negb (is_win32 ?w0)] =>
        destruct (value r), (is_win32 w0); reflexivity
    end.
Qed.

(** C2 at a concrete host: Linux in development mode, OBS running. *)
Lemma detection_pass_order_witness :
  value (detectScreenCapture obs_dev_world (initial_state obs_dev_world)) = true
  /\ exec_calls (events (detectScreenCapture obs_dev_world (initial_state obs_dev_world)))
     = ["ps aux"].
Proof.
  destruct (detection_pass_order obs_dev_world (initial_state obs_dev_world))
    as [_ [Hhit _]].
  apply Hhit. reflexivity.
Defined.

(* ===================================================================== *)
(** ** The scheduler stays in order *)
(* ===================================================================== *)

Lemma active_timers_app (tr evs : list Event) :
  active_timers (tr ++ evs) = fold_left timer_step evs (active_timers tr).
Proof. unfold active_timers. apply fold_left_app. Qed.

Lemma plain_timer_step (act : list nat) (e : Event) :
  plain e = true -> timer_step act e = act.
Proof. destruct e; simpl; congruence. Qed.

Lemma plain_fold (evs : list Event) (act : list nat) :
  forallb plain evs = true -> fold_left timer_step evs act = act.
Proof.
  induction evs as [|e evs IH]; simpl; [reflexivity |].
  rewrite andb_true_iff. intros [He Hevs].
  now rewrite (plain_timer_step act e He), IH.
Qed.

Lemma always_from_app (ok : list nat -> Event -> bool) (act : list nat)
    (a b : list Event) :
  always_from ok act (a ++ b)
  = always_from ok act a && always_from ok (fold_left timer_step a act) b.
Proof.
  revert act; induction a as [|e a IH]; intros act; simpl; [reflexivity |].
  now rewrite IH, andb_assoc.
Qed.

Lemma plain_always (ok : list nat -> Event -> bool) (act : list nat)
    (evs : list Event) :
  (forall e, plain e = true -> ok act e = true) ->
  forallb plain evs = true -> always_from ok act evs = true.
Proof.
  intros Hok. induction evs as [|e evs IH]; simpl; [reflexivity |].
  rewrite andb_true_iff. intros [He Hevs].
  now rewrite (Hok e He), (plain_timer_step act e He), IH.
Qed.

Lemma remove_single (h : nat) : List.remove Nat.eq_dec h [h] = [].
Proof. simpl. destruct (Nat.eq_dec h h); [reflexivity | congruence]. Qed.

(** The two shapes of a state that agrees with its trace. *)
Lemma consistent_cases (tr : list Event) (st : State) :
  consistent tr st ->
  (screenCaptureCheckInterval st = None /\ active_timers tr = [])
  \/ (exists h, screenCaptureCheckInterval st = Some h /\ active_timers tr = [h]
                /\ isMonitoring st = true).
Proof.
  intros [Ht Hm]. destruct (screenCaptureCheckInterval st) as [h|] eqn:E.
  - right. exists h. repeat split; trivial. apply Hm. discriminate.
  - left. now split.
Qed.

Lemma consistent_stopped (tr : list Event) (st : State) :
  consistent tr st -> isMonitoring st = false ->
  screenCaptureCheckInterval st = None /\ active_timers tr = [].
Proof.
  intros Hc Hs. destruct (consistent_cases tr st Hc) as [H | [h [_ [_ Hm]]]];
    [exact H | congruence].
Qed.

Lemma consistent_timers_le (tr : list Event) (st : State) :
  consistent tr st -> List.length (active_timers tr) <= 1.
Proof.
  intros H. destruct (consistent_cases tr st H) as [[_ ->] | [h [_ [-> _]]]];
    simpl; lia.
Qed.

Lemma bind_get {A : Type} (k : State -> M A) (st : State) :
  bind get k st = k st st.
Proof. unfold bind. cbn [get value after events app]. now destruct (k st st). Qed.

(** [stopMonitoring] in closed form. *)
Lemma stopMonitoring_run (st : State) :
  stopMonitoring st =
  if isMonitoring st then
    match screenCaptureCheckInterval st with
    | Some h =>
        {| value := tt;
           after := set_interval_handle None (set_isMonitoring false st);
           events := [ ELog "[ScreenProtection] Stopping screen capture monitoring";
                       EClearInterval h ] |}
    | None =>
        {| value := tt;
           after := set_isMonitoring false st;
           events := [ ELog "[ScreenProtection] Stopping screen capture monitoring" ] |}
    end
  else
    {| value := tt; after := st;
       events := [ ELog "[ScreenProtection] Already stopped, skipping stop" ] |}.
Proof.
  unfold stopMonitoring. rewrite bind_get.
  destruct (isMonitoring st); [|reflexivity].
  destruct (screenCaptureCheckInterval st); reflexivity.
Qed.

(** [startMonitoring] in closed form. *)
Lemma startMonitoring_run (w : World) (st : State) :
  startMonitoring w st =
  if isMonitoring st then
    {| value := tt; after := st;
       events := [ ELog "[ScreenProtection] Already monitoring, skipping start" ] |}
  else if protection_disabled w then
    {| value := tt; after := set_isMonitoring true st;
       events :=
         [ ELog "[ScreenProtection] Screen protection disabled via environment variable" ] |}
  else
    {| value := tt;
       after := set_interval_handle (Some (nextHandle st))
                  (bump_handle (set_isMonitoring true st));
       events :=
         [ ELog ("[ScreenProtection] Starting screen capture monitoring ("
                 ++ (if developmentMode st then "development" else "production")
                 ++ " mode)");
           ESetInterval (nextHandle st) (if developmentMode st then 5000 else 2000) ] |}.
Proof.
  unfold startMonitoring. rewrite bind_get.
  destruct (isMonitoring st); [reflexivity |].
  destruct (protection_disabled w); reflexivity.
Qed.

Lemma ipc_start_run (w : World) (st : State) :
  ipc_start_screen_protection w st =
  {| value := {| success := true; error := None |};
     after := after (startMonitoring w (set_screenProtectionActive true st));
     events := (events (startMonitoring w (set_screenProtectionActive true st))
                ++ [ELog "[Main] Screen protection started"])%list |}.
Proof. reflexivity. Qed.

Lemma ipc_stop_run (st : State) :
  ipc_stop_screen_protection st =
  {| value := {| success := true; error := None |};
     after := after (stopMonitoring (set_screenProtectionActive false st));
     events := (events (stopMonitoring (set_screenProtectionActive false st))
                ++ [ELog "[Main] Screen protection stopped"])%list |}.
Proof. reflexivity. Qed.

Lemma step_start (w : World) (st : State) :
  after (step w OpStart st) = after (ipc_start_screen_protection w st)
  /\ events (step w OpStart st) = events (ipc_start_screen_protection w st).
Proof. cbn [step]. rewrite after_bind, events_bind. split; [reflexivity | apply app_nil_r]. Qed.

Lemma step_stop (w : World) (st : State) :
  after (step w OpStop st) = after (ipc_stop_screen_protection st)
  /\ events (step w OpStop st) = events (ipc_stop_screen_protection st).
Proof. cbn [step]. rewrite after_bind, events_bind. split; [reflexivity | apply app_nil_r]. Qed.

Lemma run_two (w : World) (o1 o2 : Op) (st : State) :
  events (run w [o1; o2] st)
  = (events (step w o1 st) ++ events (step w o2 (after (step w o1 st))))%list
  /\ after (run w [o1; o2] st) = after (step w o2 (after (step w o1 st))).
Proof.
  cbn [run]. rewrite !events_bind, !after_bind. cbn [ret events after].
  now rewrite app_nil_r.
Qed.

Lemma Quiet_Safe {A : Type} (m : M A) : Quiet m -> Safe m.
Proof.
  intros Hq tr st Hc. destruct (Hq st) as [(F1 & _ & _ & _ & F5 & _) Hp].
  pose proof (consistent_timers_le tr st Hc) as Hle.
  destruct Hc as [Ht Hm]. repeat split.
  - rewrite active_timers_app, (plain_fold _ _ Hp), F5. exact Ht.
  - rewrite F5, F1. exact Hm.
  - apply plain_always; [|assumption]. intros e He. destruct e; simpl in *; congruence.
  - apply plain_always; [|assumption]. intros e He. unfold timers_ok.
    rewrite (plain_timer_step _ e He). now apply Nat.leb_le.
Qed.

Lemma Safe_bind {A B : Type} (m : M A) (k : A -> M B) :
  Safe m -> (forall a, Safe (k a)) -> Safe (bind m k).
Proof.
  intros Hm Hk tr st Hc. unfold bind; cbn [after events].
  destruct (Hm tr st Hc) as (C1 & P1 & T1).
  destruct (Hk (value (m st)) _ _ C1) as (C2 & P2 & T2).
  rewrite active_timers_app in P2, T2.
  rewrite app_assoc, !always_from_app, P1, P2, T1, T2.
  split; [exact C2 | split; reflexivity].
Qed.

Lemma Safe_set_screenProtectionActive (b : bool) :
  Safe (modify (set_screenProtectionActive b)).
Proof.
  intros tr st Hc. cbn [modify after events]. rewrite app_nil_r.
  repeat split; apply Hc.
Qed.

Lemma Safe_stopMonitoring : Safe stopMonitoring.
Proof.
  intros tr st Hc. rewrite stopMonitoring_run. unfold consistent.
  rewrite active_timers_app.
  destruct (consistent_cases tr st Hc) as [[Hn Ha] | [h [Hs [Ha Hm]]]].
  - rewrite Hn, Ha. destruct (isMonitoring st) eqn:Hmon;
      cbn; rewrite ?Hn; repeat split; try reflexivity; congruence.
  - rewrite Hm, Hs, Ha. cbn. destruct (Nat.eq_dec h h); [|congruence].
    repeat split; try reflexivity; congruence.
Qed.

Lemma Safe_startMonitoring (w : World) : Safe (startMonitoring w).
Proof.
  intros tr st Hc. rewrite startMonitoring_run. unfold consistent.
  rewrite active_timers_app.
  destruct (isMonitoring st) eqn:Hmon.
  - cbn [after events fold_left timer_step always_from prompt_ok timers_ok andb].
    destruct Hc as [Ht Hm]. rewrite Ht.
    repeat split; trivial.
    destruct (screenCaptureCheckInterval st); reflexivity.
  - destruct (consistent_stopped tr st Hc Hmon) as [Hn Ha]. rewrite Ha.
    destruct (protection_disabled w);
      cbn [after events fold_left timer_step always_from prompt_ok timers_ok andb app
           List.length Nat.leb screenCaptureCheckInterval isMonitoring
           set_interval_handle bump_handle set_isMonitoring];
      rewrite ?Hn; repeat split; try reflexivity; congruence.
Qed.

(* ===================================================================== *)
(** ** Response to a detection *)
(* ===================================================================== *)

(** Stopping from a state in order leaves no timer, whatever the flag. *)
Lemma stopMonitoring_clears (tr : list Event) (st : State) :
  consistent tr st ->
  active_timers (tr ++ events (stopMonitoring st)) = []
  /\ screenCaptureCheckInterval (after (stopMonitoring st)) = None
  /\ isMonitoring (after (stopMonitoring st)) = false
  /\ clock (after (stopMonitoring st)) = clock st
  /\ detectedProcess (after (stopMonitoring st)) = detectedProcess st
  /\ forallb (fun e => match e with EShowMessageBox _ => false | _ => true end)
             (events (stopMonitoring st)) = true.
Proof.
  intros Hc. rewrite active_timers_app, stopMonitoring_run.
  destruct (consistent_cases tr st Hc) as [[Hn Ha] | [h [Hs [Ha Hm]]]].
  - rewrite Hn, Ha. destruct (isMonitoring st) eqn:Hmon; cbn; repeat split; assumption.
  - rewrite Hm, Hs, Ha. cbn. destruct (Nat.eq_dec h h); [|congruence].
    repeat split.
Qed.

(** The events of the handler: the alert line, the stop, the prompt, then
    the quit, direct or deferred. *)
Lemma handleScreenCaptureDetected_events (w : World) (st : State) :
  let st1 := after (stopMonitoring st) in
  let detectedInfo :=
    if truthy (detectedProcess st1)
    then nl2 ++ "Detected process: " ++ detectedProcess st1
    else EmptyString in
  events (handleScreenCaptureDetected w st) =
    (ELog "[ScreenProtection] SECURITY ALERT: Screen capture detected!"
     :: events (stopMonitoring st)
     ++ EShowMessageBox (alert_detail detectedInfo)
     :: (if messageBoxResponse w (clock st1) =? 0
         then [ ELog "[ScreenProtection] User acknowledged security alert, closing application";
                EAppQuit ]
         else [ ELog "[ScreenProtection] User cancelled, but app will close anyway for security";
                ESetTimeoutQuit 1000 ]))%list.
Proof.
  intros st1 detectedInfo. unfold handleScreenCaptureDetected, bind.
  cbn [console_log emit get showMessageBox modify ret value after events app bind].
  fold st1. fold detectedInfo. f_equal. f_equal.
  cbn [tick_clock clock]. f_equal.
  destruct (messageBoxResponse w (clock st1) =? 0); reflexivity.
Qed.

Lemma handleScreenCaptureDetected_after (w : World) (st : State) :
  after (handleScreenCaptureDetected w st) = tick_clock (after (stopMonitoring st)).
Proof.
  unfold handleScreenCaptureDetected, bind.
  cbn [console_log emit get showMessageBox modify ret value after events bind].
  destruct (messageBoxResponse w _ =? 0); reflexivity.
Qed.

Lemma Safe_handleScreenCaptureDetected (w : World) :
  Safe (handleScreenCaptureDetected w).
Proof.
  intros tr st Hc.
  destruct (stopMonitoring_clears tr st Hc) as (Hact & Hnone & Hmon & _).
  destruct (Safe_stopMonitoring tr st Hc) as (_ & P & T).
  rewrite active_timers_app in Hact.
  rewrite handleScreenCaptureDetected_events, handleScreenCaptureDetected_after.
  cbv zeta. unfold consistent. cbn [screenCaptureCheckInterval isMonitoring tick_clock].
  rewrite Hnone, active_timers_app.
  cbn [always_from fold_left timer_step prompt_ok andb].
  rewrite !always_from_app, !fold_left_app, P, T, Hact.
  assert (Hone : timers_ok (active_timers tr)
                   (ELog "[ScreenProtection] SECURITY ALERT: Screen capture detected!")
                 = true).
  { unfold timers_ok. cbn [timer_step]. apply Nat.leb_le.
    exact (consistent_timers_le tr st Hc). }
  rewrite Hone.
  destruct (messageBoxResponse w _ =? 0); cbn; repeat split; congruence.
Qed.

Lemma Safe_intervalCallback (w : World) : Safe (intervalCallback w).
Proof.
  unfold intervalCallback. apply Safe_bind.
  - apply Quiet_Safe, Quiet_detectScreenCapture.
  - intros [|]; [apply Safe_handleScreenCaptureDetected |].
    apply Quiet_Safe, Quiet_ret.
Qed.

Lemma Safe_ipc_start (w : World) : Safe (ipc_start_screen_protection w).
Proof.
  unfold ipc_start_screen_protection.
  apply Safe_bind; [apply Safe_set_screenProtectionActive | intro].
  apply Safe_bind; [apply Safe_startMonitoring | intro].
  apply Safe_bind; [apply Quiet_Safe, Quiet_console_log | intro].
  apply Quiet_Safe, Quiet_ret.
Qed.

Lemma Safe_ipc_stop : Safe ipc_stop_screen_protection.
Proof.
  unfold ipc_stop_screen_protection.
  apply Safe_bind; [apply Safe_set_screenProtectionActive | intro].
  apply Safe_bind; [apply Safe_stopMonitoring | intro].
  apply Safe_bind; [apply Quiet_Safe, Quiet_console_log | intro].
  apply Quiet_Safe, Quiet_ret.
Qed.

Lemma Safe_step (w : World) (o : Op) : Safe (step w o).
Proof.
  destruct o; cbn [step].
  - apply Safe_bind; [apply Safe_ipc_start | intro]. apply Quiet_Safe, Quiet_ret.
  - apply Safe_bind; [apply Safe_ipc_stop | intro]. apply Quiet_Safe, Quiet_ret.
  - apply Safe_bind; [apply Quiet_Safe, Quiet_checkPermission | intro].
    apply Quiet_Safe, Quiet_ret.
  - apply Safe_bind; [apply Quiet_Safe, Quiet_requestPermission | intro].
    apply Quiet_Safe, Quiet_ret.
  - apply Safe_bind; [apply Quiet_Safe, Quiet_get | intros s].
    destruct (screenCaptureCheckInterval s);
      [apply Safe_intervalCallback | apply Quiet_Safe, Quiet_ret].
Qed.

Lemma Safe_run (w : World) (ops : list Op) : Safe (run w ops).
Proof.
  induction ops as [|o ops IH]; cbn [run].
  - apply Quiet_Safe, Quiet_ret.
  - apply Safe_bind; [apply Safe_step | intro; exact IH].
Qed.

Lemma consistent_initial (w : World) : consistent [] (initial_state w).
Proof. split; [reflexivity | intros H; now contradiction H]. Qed.

Lemma intervalCallback_events (w : World) (st : State) :
  events (intervalCallback w st) =
    (events (detectScreenCapture w st)
     ++ if value (detectScreenCapture w st)
        then events (handleScreenCaptureDetected w (after (detectScreenCapture w st)))
        else [])%list.
Proof.
  unfold intervalCallback, bind. cbn [value after events].
  destruct (value (detectScreenCapture w st)); reflexivity.
Qed.

Lemma plain_not_prompt (evs : list Event) :
  forallb plain evs = true -> forallb not_prompt evs = true.
Proof.
  rewrite !forallb_forall. intros H e He. specialize (H e He).
  destruct e; simpl in *; congruence.
Qed.

(** C5.  Run from a state in order, a callback whose detection pass
    answers true shows exactly one prompt; everything before it is the
    pass, the alert line and the stop; at the prompt no interval timer is
    active, the handle held by the scheduler has been cleared, and this
    holds of every prompt of every run of the process. *)
Theorem scheduler_stopped_before_prompt
    (w : World) (tr : list Event) (st : State)
    (Hc : consistent tr st)
    (Hdetected : value (detectScreenCapture w st) = true) :
  (exists pre detail post,
      events (intervalCallback w st) = (pre ++ EShowMessageBox detail :: post)%list
      /\ forallb not_prompt pre = true
      /\ forallb not_prompt post = true
      /\ active_timers (tr ++ pre) = []
      /\ (forall h, screenCaptureCheckInterval st = Some h ->
                    In (EClearInterval h) pre))
  /\ (forall ops, prompts_when_stopped (events (run w ops (initial_state w))) = true).
Proof.
  split.
  - rewrite intervalCallback_events, Hdetected.
    destruct (Quiet_detectScreenCapture w st) as [(F1 & _ & _ & _ & F5 & _) Hp].
    set (st1 := after (detectScreenCapture w st)) in *.
    set (d := events (detectScreenCapture w st)) in *.
    assert (Hc1 : consistent (tr ++ d) st1).
    { destruct (Quiet_Safe _ (Quiet_detectScreenCapture w) tr st Hc) as [H _]. exact H. }
    destruct (stopMonitoring_clears _ _ Hc1) as (Hact & _ & _ & _ & _ & Hnp).
    rewrite handleScreenCaptureDetected_events. cbv zeta.
    eexists (d ++ ELog _ :: events (stopMonitoring st1))%list, _, _.
    split; [rewrite <- app_assoc; reflexivity |].
    split; [|split; [|split]].
    + rewrite forallb_app, (plain_not_prompt _ Hp). cbn [forallb not_prompt andb].
      exact Hnp.
    + destruct (messageBoxResponse w _ =? 0); reflexivity.
    + rewrite app_assoc, active_timers_app. cbn [fold_left timer_step].
      rewrite <- active_timers_app. exact Hact.
    + intros h Hh. apply in_or_app. right. right.
      destruct Hc1 as [_ Hmon]. rewrite F5, F1 in Hmon.
      unfold stopMonitoring, bind. cbn [get value after events].
      rewrite F1, F5, Hh, Hmon by (rewrite Hh; discriminate).
      cbn. auto.
  - intros ops.
    destruct (Safe_run w ops [] (initial_state w) (consistent_initial w)) as (_ & P & _).
    exact P.
Qed.

(** The scheduler was started on a production host and OBS is running. *)
Lemma scheduler_stopped_before_prompt_witness :
  consistent (events (run obs_lower_world [OpStart] (initial_state obs_lower_world)))
             (after (run obs_lower_world [OpStart] (initial_state obs_lower_world)))
  /\ exists pre detail post,
      events (intervalCallback obs_lower_world
                (after (run obs_lower_world [OpStart] (initial_state obs_lower_world))))
      = (pre ++ EShowMessageBox detail :: post)%list
      /\ In (EClearInterval 0) pre.
Proof.
  assert (Hc : consistent
                 (events (run obs_lower_world [OpStart] (initial_state obs_lower_world)))
                 (after (run obs_lower_world [OpStart] (initial_state obs_lower_world)))).
  { split; [reflexivity | intros _; reflexivity]. }
  split; [exact Hc |].
  destruct (scheduler_stopped_before_prompt obs_lower_world _ _ Hc eq_refl)
    as [(pre & detail & post & He & _ & _ & _ & Hclr) _].
  exists pre, detail, post. split; [exact He | apply Hclr; reflexivity].
Defined.

Lemma termination_delay_skip (a b : list Event) :
  forallb (fun e => match e with EAppQuit | ESetTimeoutQuit _ => false | _ => true end) a
  = true ->
  termination_delay (a ++ b) = termination_delay b.
Proof.
  induction a as [|e a IH]; simpl; [reflexivity |].
  rewrite andb_true_iff. intros [He Ha]. destruct e; try discriminate; now apply IH.
Qed.

Lemma stopMonitoring_no_quit (st : State) :
  forallb (fun e => match e with EAppQuit | ESetTimeoutQuit _ => false | _ => true end)
          (events (stopMonitoring st)) = true.
Proof.
  rewrite stopMonitoring_run.
  destruct (isMonitoring st); [|reflexivity].
  destruct (screenCaptureCheckInterval st); reflexivity.
Qed.

Lemma stopMonitoring_clock (st : State) :
  clock (after (stopMonitoring st)) = clock st.
Proof.
  rewrite stopMonitoring_run.
  destruct (isMonitoring st); [|reflexivity].
  destruct (screenCaptureCheckInterval st); reflexivity.
Qed.

Lemma stopMonitoring_isMonitoring (st : State) :
  isMonitoring (after (stopMonitoring st)) = false.
Proof.
  rewrite stopMonitoring_run.
  destruct (isMonitoring st) eqn:E; [|exact E].
  destruct (screenCaptureCheckInterval st); reflexivity.
Qed.

(** The delay the main-process handler leaves before the application
    quits: none after OK (button 0), one second after anything else. *)
Lemma handleScreenCaptureDetected_delay (w : World) (st : State) :
  termination_delay (events (handleScreenCaptureDetected w st))
  = Some (if messageBoxResponse w (clock st) =? 0 then 0 else 1000).
Proof.
  rewrite handleScreenCaptureDetected_events. cbv zeta.
  cbn [termination_delay].
  rewrite (termination_delay_skip _ _ (stopMonitoring_no_quit st)).
  rewrite stopMonitoring_clock. cbn [termination_delay].
  destruct (messageBoxResponse w (clock st) =? 0); reflexivity.
Qed.

(** C3.  Whatever button the user presses in the dialog of the main
    process, the handler ends in [app.quit()], at once or through a
    timeout, within 600 ms after OK and 1100 ms after Cancel, and it leaves
    the scheduler stopped; whatever the user answers to the prompt of the
    renderer, [logout()] is scheduled within the same bounds.  No answer
    leaves the event without its terminating action. *)
Theorem response_always_terminates
    (w : World) (st : State) (userConfirmed : bool) :
  (exists d,
      termination_delay (events (handleScreenCaptureDetected w st)) = Some d
      /\ d <= (if messageBoxResponse w (clock st) =? 0 then 600 else 1100))
  /\ isMonitoring (after (handleScreenCaptureDetected w st)) = false
  /\ (exists d,
      Renderer.logout_delay (Renderer.handleScreenshotDetected userConfirmed) = Some d
      /\ d <= (if userConfirmed then 600 else 1100)).
Proof.
  split; [|split].
  - eexists. split; [apply handleScreenCaptureDetected_delay |].
    destruct (messageBoxResponse w (clock st) =? 0); lia.
  - rewrite handleScreenCaptureDetected_after. cbn [tick_clock isMonitoring].
    apply stopMonitoring_isMonitoring.
  - destruct userConfirmed; eexists; (split; [reflexivity | cbn; lia]).
Qed.

(** C4, as amended.  In the renderer the delay before [logout()] after
    the user confirms (500 ms) is strictly longer than after a cancel
    (100 ms).  In the main process it is the other way round: OK quits at
    once, any other answer quits after one second.  In each handler both
    answers end in the same action. *)
Theorem grace_delays
    (w_ok w_cancel : World) (st : State)
    (Hok : messageBoxResponse w_ok (clock st) = 0)
    (Hcancel : messageBoxResponse w_cancel (clock st) <> 0) :
  (exists d_confirm d_cancel,
      Renderer.logout_delay (Renderer.handleScreenshotDetected true) = Some d_confirm
      /\ Renderer.logout_delay (Renderer.handleScreenshotDetected false) = Some d_cancel
      /\ d_cancel < d_confirm)
  /\ (exists d_ok d_cancel,
      termination_delay (events (handleScreenCaptureDetected w_ok st)) = Some d_ok
      /\ termination_delay (events (handleScreenCaptureDetected w_cancel st))
         = Some d_cancel
      /\ d_ok = 0 /\ d_cancel = 1000 /\ d_ok < d_cancel).
Proof.
  split.
  - exists 500, 100. repeat split. lia.
  - exists 0, 1000. rewrite !handleScreenCaptureDetected_delay, Hok.
    apply Nat.eqb_neq in Hcancel. rewrite Hcancel. repeat split. lia.
Qed.

Lemma grace_delays_witness :
  termination_delay
    (events (handleScreenCaptureDetected obs_lower_world (initial_state obs_lower_world)))
  = Some 0
  /\ termination_delay
       (events (handleScreenCaptureDetected obs_cancel_world
                  (initial_state obs_lower_world)))
     = Some 1000.
Proof.
  destruct (grace_delays obs_lower_world obs_cancel_world (initial_state obs_lower_world))
    as [_ (d1 & d2 & H1 & H2 & -> & -> & _)].
  - reflexivity.
  - simpl. lia.
  - split; assumption.
Defined.

(** C4, counterexample.  In the main process the user who presses OK gets
    no delay and the user who presses Cancel gets one second: it is not
    true that the delay after a confirmation is the longer one. *)
Lemma main_confirm_delay_not_longer :
  messageBoxResponse obs_lower_world 0 = 0
  /\ messageBoxResponse obs_cancel_world 0 = 1
  /\ ~ (forall d_ok d_cancel,
          termination_delay
            (events (handleScreenCaptureDetected obs_lower_world
                       (initial_state obs_lower_world))) = Some d_ok ->
          termination_delay
            (events (handleScreenCaptureDetected obs_cancel_world
                       (initial_state obs_cancel_world))) = Some d_cancel ->
          d_cancel < d_ok).
Proof.
  split; [reflexivity |]. split; [reflexivity |].
  intros H. specialize (H 0 1000 eq_refl eq_refl). lia.
Qed.

(* ===================================================================== *)
(** ** What the main process never does *)
(* ===================================================================== *)

Lemma plain_not_send (e : Event) : plain e = true -> not_send e = true.
Proof. destruct e; simpl; congruence. Qed.

Lemma not_send_stopMonitoring : Emits not_send stopMonitoring.
Proof. unfold stopMonitoring. emits. Qed.

Lemma not_send_startMonitoring (w : World) : Emits not_send (startMonitoring w).
Proof. unfold startMonitoring. emits. Qed.

Lemma not_send_handler (w : World) : Emits not_send (handleScreenCaptureDetected w).
Proof. unfold handleScreenCaptureDetected. emits. Qed.

Lemma not_send_intervalCallback (w : World) : Emits not_send (intervalCallback w).
Proof.
  unfold intervalCallback. apply Emits_bind.
  - apply Quiet_Emits; [exact plain_not_send | apply Quiet_detectScreenCapture].
  - intros [|]; [apply not_send_handler | apply Emits_ret].
Qed.

Lemma not_send_step (w : World) (o : Op) : Emits not_send (step w o).
Proof.
  destruct o; cbn [step].
  - unfold ipc_start_screen_protection. emits.
  - unfold ipc_stop_screen_protection. emits.
  - apply Emits_bind; [|intro; apply Emits_ret].
    apply Quiet_Emits; [exact plain_not_send | apply Quiet_checkPermission].
  - apply Emits_bind; [|intro; apply Emits_ret].
    apply Quiet_Emits; [exact plain_not_send | apply Quiet_requestPermission].
  - apply Emits_bind; [apply Emits_get | intros s].
    destruct (screenCaptureCheckInterval s);
      [apply not_send_intervalCallback | apply Emits_ret].
Qed.

Lemma not_send_run (w : World) (ops : list Op) : Emits not_send (run w ops).
Proof.
  induction ops as [|o ops IH]; cbn [run]; [apply Emits_ret |].
  apply Emits_bind; [apply not_send_step | intro; exact IH].
Qed.

Lemma not_send_notifications (evs : list Event) :
  forallb not_send evs = true -> notifications evs = [].
Proof.
  induction evs as [|e evs IH]; simpl; [reflexivity |].
  rewrite andb_true_iff. intros [He Hevs]. destruct e; try discriminate; now apply IH.
Qed.

(** C7, as amended.  The main process sends the renderer no notification
    at all, so at most one per detected event: neither the handler of a
    detection, run from any state, nor any run of the process emits one;
    the detection is answered in the main process itself, by its own
    dialog.  On the renderer side a message on either of the two channels
    it listens to, whatever it carries, runs the handler once (one prompt)
    and a message on any other channel runs nothing. *)
Theorem no_notification_sent
    (w : World) (st : State) (ops : list Op) (channel : string) (answer : bool) :
  notifications (events (handleScreenCaptureDetected w st)) = []
  /\ notifications (events (intervalCallback w st)) = []
  /\ notifications (events (run w ops (initial_state w))) = []
  /\ List.length
       (filter (fun e => match e with Renderer.EConfirm => true | _ => false end)
               (Renderer.on_ipc_message channel answer))
     = (if existsb (String.eqb channel) Renderer.listened_channels then 1 else 0).
Proof.
  split; [|split; [|split]].
  - apply not_send_notifications, not_send_handler.
  - apply not_send_notifications, not_send_intervalCallback.
  - apply not_send_notifications, not_send_run.
  - unfold Renderer.on_ipc_message.
    destruct (existsb _ _); destruct answer; reflexivity.
Qed.

(** C7, counterexample.  On a production host where OBS is running, the
    first tick after the start detects the capture and shows the dialog,
    and the number of notifications sent to the renderer is zero, not
    one. *)
Lemma detected_event_not_notified :
  value (detectScreenCapture obs_lower_world
           (after (run obs_lower_world [OpStart] (initial_state obs_lower_world))))
  = true
  /\ List.length
       (filter (fun e => negb (not_prompt e))
          (events (run obs_lower_world [OpStart; OpTick]
                     (initial_state obs_lower_world)))) = 1
  /\ List.length
       (notifications
          (events (run obs_lower_world [OpStart; OpTick]
                     (initial_state obs_lower_world)))) = 0.
Proof. repeat split. Qed.

(* ===================================================================== *)
(** ** Starting and stopping *)
(* ===================================================================== *)

Lemma startMonitoring_noop (w : World) (st : State) :
  isMonitoring st = true ->
  after (startMonitoring w st) = st
  /\ events (startMonitoring w st)
     = [ELog "[ScreenProtection] Already monitoring, skipping start"].
Proof.
  intros H. rewrite startMonitoring_run, H. split; reflexivity.
Qed.

Lemma stopMonitoring_noop (st : State) :
  isMonitoring st = false ->
  after (stopMonitoring st) = st
  /\ events (stopMonitoring st)
     = [ELog "[ScreenProtection] Already stopped, skipping stop"].
Proof.
  intros H. rewrite stopMonitoring_run, H. split; reflexivity.
Qed.

(** C8, as amended.  Along every run of the process at most one interval
    timer is active at any point.  Starting while already monitoring
    changes nothing and only logs; stopping while already stopped changes
    nothing and only logs.  From a stopped state two successive start
    requests leave exactly one active timer, unless the environment
    variable DISABLE_SCREEN_PROTECTION is 'true', in which case they leave
    none; from any state two successive stop requests leave no active
    timer, and both succeed. *)
Theorem at_most_one_interval_timer
    (w : World) (tr : list Event) (st : State) (ops : list Op)
    (Hc : consistent tr st) :
  at_most_one_timer (events (run w ops (initial_state w))) = true
  /\ (isMonitoring st = true ->
      after (startMonitoring w st) = st
      /\ events (startMonitoring w st)
         = [ELog "[ScreenProtection] Already monitoring, skipping start"])
  /\ (isMonitoring st = false ->
      after (stopMonitoring st) = st
      /\ events (stopMonitoring st)
         = [ELog "[ScreenProtection] Already stopped, skipping stop"])
  /\ (isMonitoring st = false ->
      List.length (active_timers (tr ++ events (run w [OpStart; OpStart] st)))
      = (if protection_disabled w then 0 else 1))
  /\ List.length (active_timers (tr ++ events (run w [OpStop; OpStop] st))) = 0
  /\ success (value (ipc_stop_screen_protection st)) = true
  /\ success (value (ipc_stop_screen_protection
                       (after (ipc_stop_screen_protection st)))) = true.
Proof.
  split; [|split; [|split; [|split; [|split; [|split]]]]].
  - destruct (Safe_run w ops [] (initial_state w) (consistent_initial w)) as (_ & _ & T).
    exact T.
  - apply startMonitoring_noop.
  - apply stopMonitoring_noop.
  - intros Hs. destruct (consistent_stopped tr st Hc Hs) as [Hn Ha].
    rewrite active_timers_app, Ha.
    destruct (run_two w OpStart OpStart st) as [-> _].
    destruct (step_start w st) as [-> ->].
    destruct (step_start w (after (ipc_start_screen_protection w st))) as [_ ->].
    rewrite !ipc_start_run. cbn [after events].
    rewrite (startMonitoring_run w (set_screenProtectionActive true st)).
    cbn [isMonitoring set_screenProtectionActive]. rewrite Hs.
    destruct (protection_disabled w); cbn [after events];
      rewrite startMonitoring_run; reflexivity.
  - rewrite active_timers_app.
    destruct (run_two w OpStop OpStop st) as [-> _].
    destruct (step_stop w st) as [-> ->].
    destruct (step_stop w (after (ipc_stop_screen_protection st))) as [_ ->].
    rewrite !ipc_stop_run. cbn [after events].
    rewrite (stopMonitoring_run (set_screenProtectionActive false st)).
    cbn [isMonitoring screenCaptureCheckInterval set_screenProtectionActive].
    destruct (consistent_cases tr st Hc) as [[Hn Ha] | [h [Hs [Ha Hm]]]].
    + rewrite Hn, Ha. destruct (isMonitoring st) eqn:Hm; cbn [after events];
        rewrite stopMonitoring_run;
        cbn [isMonitoring screenCaptureCheckInterval set_screenProtectionActive
             set_isMonitoring]; rewrite ?Hm, ?Hn; reflexivity.
    + rewrite Hs, Ha, Hm. cbn [after events]. rewrite stopMonitoring_run.
      cbn. destruct (Nat.eq_dec h h); [reflexivity | congruence].
  - reflexivity.
  - reflexivity.
Qed.

(** From the initial state of a production host. *)
Lemma at_most_one_interval_timer_witness :
  consistent [] (initial_state obs_lower_world)
  /\ List.length
       (active_timers
          (events (run obs_lower_world [OpStart; OpStart]
                     (initial_state obs_lower_world)))) = 1.
Proof.
  assert (Hc : consistent [] (initial_state obs_lower_world)).
  { split; [reflexivity | intros H; now contradiction H]. }
  split; [exact Hc |].
  destruct (at_most_one_interval_timer obs_lower_world [] _ [] Hc)
    as (_ & _ & _ & H & _).
  apply H. reflexivity.
Defined.

(** C8, counterexample.  With DISABLE_SCREEN_PROTECTION set to 'true', two
    successive start requests leave no active timer, not one. *)
Lemma two_starts_no_timer_when_disabled :
  DISABLE_SCREEN_PROTECTION disabled_world = Some "true"
  /\ List.length
       (active_timers
          (events (run disabled_world [OpStart; OpStart]
                     (initial_state disabled_world)))) = 0
  /\ isMonitoring
       (after (run disabled_world [OpStart; OpStart] (initial_state disabled_world)))
     = true.
Proof. repeat split. Qed.

(* ===================================================================== *)
(** ** Protection switched off by the environment *)
(* ===================================================================== *)

Lemma no_scan_exec_calls (evs : list Event) :
  forallb no_scan evs = true -> exec_calls evs = [].
Proof.
  induction evs as [|e evs IH]; simpl; [reflexivity |].
  rewrite andb_true_iff. intros [He Hevs]. destruct e; try discriminate; now apply IH.
Qed.

Lemma no_scan_active_timers (evs : list Event) :
  forallb no_scan evs = true -> active_timers evs = [].
Proof.
  unfold active_timers.
  induction evs as [|e evs IH]; simpl; [reflexivity |].
  rewrite andb_true_iff. intros [He Hevs]. destruct e; try discriminate; now apply IH.
Qed.

Lemma no_scan_checkPermission (w : World) : Emits no_scan (ipc_check_screen_permission w).
Proof.
  unfold ipc_check_screen_permission, checkMacOSScreenRecordingPermission,
    getMediaAccessStatus.
  emits.
Qed.

Lemma no_scan_requestPermission (w : World) :
  Emits no_scan (ipc_request_screen_permission w).
Proof.
  unfold ipc_request_screen_permission, requestMacOSScreenRecordingPermission,
    getSources.
  emits.
Qed.

Lemma disabled_startMonitoring (w : World) (st : State) :
  protection_disabled w = true ->
  forallb no_scan (events (startMonitoring w st)) = true
  /\ screenCaptureCheckInterval (after (startMonitoring w st))
     = screenCaptureCheckInterval st
  /\ isMonitoring (after (startMonitoring w st)) = true.
Proof.
  intros Hd. rewrite startMonitoring_run, Hd.
  destruct (isMonitoring st) eqn:Hm; cbn; repeat split. exact Hm.
Qed.

(** With the flag set no step of the process creates a timer or runs a
    shell command. *)
Lemma disabled_step (w : World) (o : Op) (st : State) :
  protection_disabled w = true ->
  screenCaptureCheckInterval st = None ->
  screenCaptureCheckInterval (after (step w o st)) = None
  /\ forallb no_scan (events (step w o st)) = true.
Proof.
  intros Hd Hn. destruct o.
  - destruct (step_start w st) as [-> ->]. rewrite ipc_start_run. cbn [after events].
    destruct (disabled_startMonitoring w (set_screenProtectionActive true st) Hd)
      as (E & T & _).
    rewrite T, forallb_app, E. now split.
  - destruct (step_stop w st) as [-> ->]. rewrite ipc_stop_run. cbn [after events].
    rewrite stopMonitoring_run.
    cbn [isMonitoring screenCaptureCheckInterval set_screenProtectionActive].
    rewrite Hn. destruct (isMonitoring st); cbn; now split.
  - cbn [step]. rewrite after_bind, events_bind. cbn [ret after events].
    rewrite app_nil_r. split.
    + destruct (Quiet_checkPermission w st) as [(_ & _ & _ & _ & F & _) _]. congruence.
    + apply no_scan_checkPermission.
  - cbn [step]. rewrite after_bind, events_bind. cbn [ret after events].
    rewrite app_nil_r. split.
    + destruct (Quiet_requestPermission w st) as [(_ & _ & _ & _ & F & _) _]. congruence.
    + apply no_scan_requestPermission.
  - cbn [step]. rewrite bind_get, Hn. now split.
Qed.

Lemma disabled_run (w : World) (ops : list Op) (st : State) :
  protection_disabled w = true ->
  screenCaptureCheckInterval st = None ->
  forallb no_scan (events (run w ops st)) = true.
Proof.
  intros Hd. revert st. induction ops as [|o ops IH]; intros st Hn; [reflexivity |].
  cbn [run]. rewrite events_bind.
  destruct (disabled_step w o st Hd Hn) as [Hn' He].
  now rewrite forallb_app, He, (IH _ Hn').
Qed.

(** C9.  With DISABLE_SCREEN_PROTECTION set to 'true': [startMonitoring],
    run from any state, sets no interval timer and runs no command, and
    leaves the monitoring flag set; the handler of
    [start-screen-protection], on the freshly started process, answers
    success, the session is reported active, the scheduler says it
    monitors and holds no timer; a further start finds the flag set and
    only logs that it is skipped; and no run of the process, ticks
    included, ever issues a shell command or has an active timer. *)
Theorem disabled_scheduler_reports_running
    (w : World) (st : State) (ops : list Op)
    (Hflag : DISABLE_SCREEN_PROTECTION w = Some "true") :
  forallb no_scan (events (startMonitoring w st)) = true
  /\ isMonitoring (after (startMonitoring w st)) = true
  /\ success (value (ipc_start_screen_protection w (initial_state w))) = true
  /\ value (ipc_get_screen_protection_status w
              (after (ipc_start_screen_protection w (initial_state w))))
     = (true, platform w)
  /\ isMonitoring (after (ipc_start_screen_protection w (initial_state w))) = true
  /\ screenCaptureCheckInterval (after (ipc_start_screen_protection w (initial_state w)))
     = None
  /\ events (startMonitoring w (after (ipc_start_screen_protection w (initial_state w))))
     = [ELog "[ScreenProtection] Already monitoring, skipping start"]
  /\ after (startMonitoring w (after (ipc_start_screen_protection w (initial_state w))))
     = after (ipc_start_screen_protection w (initial_state w))
  /\ exec_calls (events (run w ops (initial_state w))) = []
  /\ active_timers (events (run w ops (initial_state w))) = [].
Proof.
  assert (Hd : protection_disabled w = true).
  { unfold protection_disabled. now rewrite Hflag. }
  destruct (disabled_startMonitoring w st Hd) as (E & _ & M).
  pose proof (disabled_run w ops (initial_state w) Hd eq_refl) as Hrun.
  assert (Hstart : ipc_start_screen_protection w (initial_state w) =
            {| value := {| success := true; error := None |};
               after := set_isMonitoring true
                          (set_screenProtectionActive true (initial_state w));
               events :=
                 [ ELog "[ScreenProtection] Screen protection disabled via environment variable";
                   ELog "[Main] Screen protection started" ] |}).
  { rewrite ipc_start_run, startMonitoring_run.
    cbn [isMonitoring set_screenProtectionActive initial_state]. now rewrite Hd. }
  rewrite Hstart. cbn [value after success].
  destruct (startMonitoring_noop w
              (set_isMonitoring true (set_screenProtectionActive true (initial_state w)))
              eq_refl) as [Hafter Hev].
  repeat split; trivial.
  - now apply no_scan_exec_calls.
  - now apply no_scan_active_timers.
Qed.

(** The host of [test-without-protection.sh], with OBS running: ten
    seconds of production ticks after the start. *)
Lemma disabled_scheduler_reports_running_witness :
  DISABLE_SCREEN_PROTECTION disabled_world = Some "true"
  /\ exec_calls
       (events (run disabled_world [OpStart; OpTick; OpTick; OpTick; OpTick; OpTick]
                    (initial_state disabled_world))) = []
  /\ isMonitoring (after (ipc_start_screen_protection disabled_world
                            (initial_state disabled_world))) = true.
Proof.
  destruct (disabled_scheduler_reports_running disabled_world
              (initial_state disabled_world)
              [OpStart; OpTick; OpTick; OpTick; OpTick; OpTick] eq_refl)
    as (_ & _ & _ & _ & Hm & _ & _ & _ & Hx & _).
  repeat split; assumption.
Defined.

(* ===================================================================== *)
(** ** The macOS probe *)
(* ===================================================================== *)

Lemma trimStart_visible (s : string) :
  has_visible (trimStart s) = has_visible s.
Proof.
  induction s as [|c s IH]; [reflexivity |].
  cbn [trimStart has_visible]. destruct (is_space c) eqn:E; cbn [negb orb].
  - exact IH.
  - cbn [has_visible]. now rewrite E.
Qed.

Lemma trimEnd_empty_iff (s : string) :
  trimEnd s = EmptyString <-> has_visible s = false.
Proof.
  induction s as [|c s IH]; [now split |].
  cbn [trimEnd has_visible].
  destruct (trimEnd s) as [|d r] eqn:E.
  - destruct (is_space c); cbn [negb orb].
    + split; [intros _; now apply IH | reflexivity].
    + split; discriminate.
  - split; [discriminate |]. intros H. apply orb_false_iff in H.
    destruct H as [_ H]. apply IH in H. discriminate.
Qed.

(** [stdout.trim().length > 0] holds exactly when the output has a
    character that is not white space. *)
Lemma trim_nonempty_iff (s : string) :
  (0 <? String.length (trim s)) = has_visible s.
Proof.
  unfold trim. rewrite <- trimStart_visible.
  destruct (trimEnd (trimStart s)) as [|c r] eqn:E.
  - apply trimEnd_empty_iff in E. now rewrite E.
  - cbn [String.length Nat.ltb Nat.leb].
    destruct (has_visible (trimStart s)) eqn:V; [reflexivity |].
    apply trimEnd_empty_iff in V. congruence.
Qed.

(** The loop over the capture applications: either nothing answered and
    every [pgrep] was run, or it stopped at the first that answered. *)
Lemma pgrep_loop_shape (w : World) (names : list string) (st : State) :
  (value (pgrep_loop w names st) = false
   /\ exec_calls (events (pgrep_loop w names st)) = map pgrep_command names)
  \/ (value (pgrep_loop w names st) = true
      /\ exists n, 1 <= n <= List.length names
         /\ exec_calls (events (pgrep_loop w names st))
            = firstn n (map pgrep_command names)).
Proof.
  revert st; induction names as [|p names IH]; intros st; [left; now split |].
  cbn [pgrep_loop]. rewrite value_bind, events_bind, exec_calls_app, execAsync_events.
  rewrite execAsync_value, execAsync_after. cbn [exec_calls app map List.length].
  assert (Hrec :
    (value (pgrep_loop w names (tick_clock st)) = false
     /\ pgrep_command p :: exec_calls (events (pgrep_loop w names (tick_clock st)))
        = pgrep_command p :: map pgrep_command names)
    \/ (value (pgrep_loop w names (tick_clock st)) = true
        /\ exists n, 1 <= n <= S (List.length names)
           /\ pgrep_command p :: exec_calls (events (pgrep_loop w names (tick_clock st)))
              = firstn n (pgrep_command p :: map pgrep_command names))).
  { destruct (IH (tick_clock st)) as [[Hv Hc] | [Hv (n & Hn & Hc)]].
    - left. now rewrite Hv, Hc.
    - right. split; [exact Hv |]. exists (S n). split; [lia |].
      cbn [firstn]. now rewrite Hc. }
  destruct (exec_result w (clock st) (pgrep_command p)) as [out|]; [|exact Hrec].
  destruct (0 <? String.length (trim out)); [|exact Hrec].
  right. split; [reflexivity |]. exists 1. split; [lia | reflexivity].
Qed.

Lemma pgrep_loop_steady (w : World) (out : string -> option string)
    (names : list string) (st : State) :
  steady_shell w out ->
  value (pgrep_loop w names st)
  = existsb (fun p => nonblank (out (pgrep_command p))) names.
Proof.
  intros Hs. revert st; induction names as [|p names IH]; intros st; [reflexivity |].
  cbn [pgrep_loop existsb]. rewrite value_bind, execAsync_value, execAsync_after, Hs.
  unfold nonblank at 1.
  destruct (out (pgrep_command p)) as [o|]; [|apply IH].
  destruct (0 <? String.length (trim o)); [reflexivity | apply IH].
Qed.


(** The probe in terms of its loop and of the answers to its three other
    commands. *)
Lemma detectMacOSScreenCapture_shape (w : World) (st : State) :
  let r1 := pgrep_loop w screenRecordingProcesses st in
  let t := clock (after r1) in
  let o2 := exec_result w t lsof_grep_command in
  let o3 := exec_result w (S t) ps_grep_command in
  let o4 := exec_result w (S (S t)) lsof_console_command in
  value (detectMacOSScreenCapture w st)
  = value r1 || nonblank o2 || nonblank o3 || console_hit o4
  /\ exec_calls (events (detectMacOSScreenCapture w st))
     = (exec_calls (events r1)
        ++ if value r1 then [] else
           lsof_grep_command ::
           if nonblank o2 then [] else
           ps_grep_command ::
           if nonblank o3 then [] else [lsof_console_command])%list.
Proof.
  intros r1 t o2 o3 o4. unfold detectMacOSScreenCapture.
  rewrite value_bind, events_bind, exec_calls_app. fold r1.
  destruct (value r1); [split; [reflexivity | reflexivity] |].
  cbv beta iota.
  rewrite value_bind, events_bind, exec_calls_app, execAsync_events,
    execAsync_value, execAsync_after.
  fold t. fold lsof_grep_command. fold o2.
  change (match o2 with
          | Some stdout => 0 <? String.length (trim stdout)
          | None => false
          end) with (nonblank o2).
  cbn [orb exec_calls app].
  destruct (nonblank o2); [split; reflexivity |].
  cbv beta iota.
  rewrite value_bind, events_bind, exec_calls_app, execAsync_events,
    execAsync_value, execAsync_after.
  cbn [clock tick_clock]. fold t. fold ps_grep_command. fold o3.
  change (match o3 with
          | Some stdout => 0 <? String.length (trim stdout)
          | None => false
          end) with (nonblank o3).
  cbn [orb exec_calls app].
  destruct (nonblank o3); [split; reflexivity |].
  cbv beta iota.
  rewrite value_bind, events_bind, exec_calls_app, execAsync_events,
    execAsync_value, execAsync_after.
  cbn [clock tick_clock]. fold t. fold lsof_console_command. fold o4.
  cbn [orb exec_calls app].
  unfold console_hit.
  destruct o4 as [out|]; [|split; reflexivity].
  destruct (0 <? _); split; reflexivity.
Qed.

(** The commands of the probe are an initial part of [probe_commands],
    the whole of it when the probe answers false. *)
Lemma probe_calls_prefix (w : World) (st : State) :
  (exists n, 1 <= n <= 19
     /\ exec_calls (events (detectMacOSScreenCapture w st)) = firstn n probe_commands)
  /\ (value (detectMacOSScreenCapture w st) = false ->
      exec_calls (events (detectMacOSScreenCapture w st)) = probe_commands).
Proof.
  destruct (detectMacOSScreenCapture_shape w st) as [Hv Hc]. cbv zeta in Hv, Hc.
  rewrite Hv, Hc. clear Hv Hc.
  destruct (pgrep_loop_shape w screenRecordingProcesses st)
    as [[Hl Hcalls] | [Hl (n & Hn & Hcalls)]]; rewrite Hl, Hcalls; cbn [orb].
  - destruct (nonblank _) eqn:E2; cbn [orb].
    { split; [exists 17; split; [lia | reflexivity] | discriminate]. }
    destruct (nonblank _) eqn:E3 in |- *; cbn [orb].
    { split; [exists 18; split; [lia | reflexivity] | discriminate]. }
    split; [exists 19; split; [lia | reflexivity] | reflexivity].
  - split; [|discriminate]. exists n. change (List.length screenRecordingProcesses)
      with 16 in Hn. split; [lia |].
    unfold probe_commands. rewrite firstn_app, length_map, app_nil_r.
    change (List.length screenRecordingProcesses) with 16.
    replace (n - 16) with 0 by lia. now rewrite app_nil_r.
Qed.

Lemma keka_shell_ascii (cmd s : string) :
  keka_shell cmd = Some s -> ascii_text s = true.
Proof.
  unfold keka_shell. destruct (String.eqb cmd (pgrep_command "Keka")); [|discriminate].
  intros H. injection H as <-. reflexivity.
Qed.

(** The loop over the capture applications, check by check: either no
    [pgrep] answered and all were run, or the loop stopped at the first
    one that answered. *)
Lemma pgrep_loop_stops (w : World) (names : list string) (st : State) :
  let hit i :=
    nonblank (exec_result w (clock st + i)
                (pgrep_command (nth i names EmptyString))) in
  (value (pgrep_loop w names st) = false
   /\ exec_calls (events (pgrep_loop w names st)) = map pgrep_command names
   /\ clock (after (pgrep_loop w names st)) = clock st + List.length names
   /\ forall i, i < List.length names -> hit i = false)
  \/ (value (pgrep_loop w names st) = true
      /\ exists n, n < List.length names
         /\ exec_calls (events (pgrep_loop w names st))
            = firstn (S n) (map pgrep_command names)
         /\ hit n = true
         /\ forall i, i < n -> hit i = false).
Proof.
  cbv zeta. revert st; induction names as [|p names IH]; intros st.
  { left. cbn [pgrep_loop ret value events after exec_calls map List.length].
    repeat split; [lia | intros i Hi; inversion Hi]. }
  cbn [pgrep_loop]. rewrite value_bind, events_bind, after_bind, exec_calls_app,
    execAsync_events, execAsync_value, execAsync_after.
  cbn [exec_calls app map List.length].
  assert (Hrec :
    nonblank (exec_result w (clock st) (pgrep_command p)) = false ->
    (value (pgrep_loop w names (tick_clock st)) = false
     /\ pgrep_command p :: exec_calls (events (pgrep_loop w names (tick_clock st)))
        = pgrep_command p :: map pgrep_command names
     /\ clock (after (pgrep_loop w names (tick_clock st)))
        = clock st + S (List.length names)
     /\ forall i, i < S (List.length names) ->
          nonblank (exec_result w (clock st + i)
                      (pgrep_command (nth i (p :: names) EmptyString))) = false)
    \/ (value (pgrep_loop w names (tick_clock st)) = true
        /\ exists n, n < S (List.length names)
           /\ pgrep_command p :: exec_calls (events (pgrep_loop w names (tick_clock st)))
              = firstn (S n) (pgrep_command p :: map pgrep_command names)
           /\ nonblank (exec_result w (clock st + n)
                          (pgrep_command (nth n (p :: names) EmptyString))) = true
           /\ forall i, i < n ->
                nonblank (exec_result w (clock st + i)
                            (pgrep_command (nth i (p :: names) EmptyString))) = false)).
  { intros H0.
    assert (Hshift : forall i,
              clock (tick_clock st) + i = clock st + S i).
    { intros i. cbn [tick_clock clock]. lia. }
    destruct (IH (tick_clock st)) as [(Hv & Hc & Hk & Hall) | (Hv & n & Hn & Hc & Hhit & Hall)].
    - left. rewrite Hv, Hc, Hk. cbn [tick_clock clock].
      repeat split; [lia |]. intros [|i] Hi.
      + rewrite Nat.add_0_r. exact H0.
      + cbn [nth]. rewrite <- Hshift. apply Hall. lia.
    - right. split; [exact Hv |]. exists (S n). split; [lia |].
      split; [cbn [firstn]; now rewrite Hc |]. split.
      + cbn [nth]. rewrite <- Hshift. exact Hhit.
      + intros [|i] Hi.
        * rewrite Nat.add_0_r. exact H0.
        * cbn [nth]. rewrite <- Hshift. apply Hall. lia. }
  unfold nonblank at 1 3 in Hrec.
  destruct (exec_result w (clock st) (pgrep_command p)) as [out|] eqn:E;
    [|exact (Hrec eq_refl)].
  destruct (0 <? String.length (trim out)) eqn:Ht; [|exact (Hrec eq_refl)].
  right. split; [reflexivity |]. exists 0. split; [lia |].
  split; [reflexivity |]. split.
  - cbn [nth]. rewrite Nat.add_0_r, E. exact Ht.
  - intros i Hi. inversion Hi.
Qed.

Lemma probe_answer_loop (w : World) (t0 i : nat) :
  i < 16 ->
  probe_answer w t0 i
  = nonblank (exec_result w (t0 + i)
                (pgrep_command (nth i screenRecordingProcesses EmptyString))).
Proof.
  intros Hi. unfold probe_answer.
  do 16 (destruct i as [|i]; [reflexivity |]). lia.
Qed.

Lemma probe_commands_loop_part (n : nat) :
  n < 16 ->
  firstn (S n) (map pgrep_command screenRecordingProcesses)
  = firstn (S n) probe_commands.
Proof.
  intros Hn. unfold probe_commands. rewrite firstn_app, length_map.
  change (List.length screenRecordingProcesses) with 16.
  replace (S n - 16) with 0 by lia. now rewrite app_nil_r.
Qed.

(** X1.  On a host whose shell prints ASCII text, the probe hands its
    commands to the shell in one fixed order, the sixteen [pgrep] of the
    capture applications, then the two [lsof] and the [ps] pipelines as
    listed in [probe_commands], and it stops at the first check that
    answers: the [n] commands it ran are the first [n] of that list, none
    of the checks before the last one run answered, the probe returns the
    answer of that last check, and it returns false only after all
    nineteen.  A check that fails or finds nothing never keeps the later
    ones from running, and nothing is run after a check that answers. *)
Theorem probe_runs_checks_in_order
    (w : World) (st : State) (Hascii : ascii_shell w) :
  exists n, 1 <= n <= 19
    /\ exec_calls (events (detectMacOSScreenCapture w st)) = firstn n probe_commands
    /\ (forall i, i < n - 1 -> probe_answer w (clock st) i = false)
    /\ value (detectMacOSScreenCapture w st) = probe_answer w (clock st) (n - 1)
    /\ (value (detectMacOSScreenCapture w st) = false -> n = 19).
Proof.
  destruct (detectMacOSScreenCapture_shape w st) as [Hv Hc]. cbv zeta in Hv, Hc.
  rewrite Hv, Hc. clear Hv Hc.
  destruct (pgrep_loop_stops w screenRecordingProcesses st)
    as [(Hl & Hcalls & Hk & Hall) | (Hl & n & Hn & Hcalls & Hhit & Hall)];
    cbv zeta in Hall; change (List.length screenRecordingProcesses) with 16 in *;
    rewrite Hl, Hcalls; cbn [orb].
  - rewrite Hk.
    assert (Hfirst : forall i, i < 16 -> probe_answer w (clock st) i = false).
    { intros i Hi. rewrite (probe_answer_loop w _ i Hi). now apply Hall. }
    change (nonblank (exec_result w (clock st + 16) lsof_grep_command))
      with (probe_answer w (clock st) 16).
    replace (S (clock st + 16)) with (clock st + 17) by lia.
    replace (S (clock st + 17)) with (clock st + 18) by lia.
    change (nonblank (exec_result w (clock st + 17) ps_grep_command))
      with (probe_answer w (clock st) 17).
    change (console_hit (exec_result w (clock st + 18) lsof_console_command))
      with (probe_answer w (clock st) 18).
    destruct (probe_answer w (clock st) 16) eqn:E16; cbn [orb].
    { exists 17. split; [lia |]. split; [reflexivity |]. split.
      - intros i Hi. apply Hfirst. cbn in Hi. lia.
      - split; [now rewrite <- E16 | discriminate]. }
    destruct (probe_answer w (clock st) 17) eqn:E17; cbn [orb].
    { exists 18. split; [lia |]. split; [reflexivity |]. split.
      - intros i Hi. cbn in Hi.
        destruct (Nat.eq_dec i 16) as [-> | Hne]; [exact E16 | apply Hfirst; lia].
      - split; [now rewrite <- E17 | discriminate]. }
    exists 19. split; [lia |]. split; [reflexivity |]. split.
    + intros i Hi. cbn in Hi.
      destruct (Nat.eq_dec i 16) as [-> | Hne16]; [exact E16 |].
      destruct (Nat.eq_dec i 17) as [-> | Hne17]; [exact E17 | apply Hfirst; lia].
    + split; reflexivity.
  - exists (S n). split; [lia |]. rewrite app_nil_r.
    split; [now apply probe_commands_loop_part |].
    replace (S n - 1) with n by lia. split.
    + intros i Hi. rewrite (probe_answer_loop w _ i) by lia. now apply Hall.
    + split; [|discriminate]. rewrite (probe_answer_loop w _ n Hn). now rewrite Hhit.
Qed.

(** On a Mac where only Keka runs the probe stops at its sixth [pgrep]. *)
Lemma probe_runs_checks_in_order_witness :
  ascii_shell keka_mac_world
  /\ exists n, 1 <= n <= 19
       /\ exec_calls (events (detectMacOSScreenCapture keka_mac_world
                                (initial_state keka_mac_world)))
          = firstn n probe_commands
       /\ value (detectMacOSScreenCapture keka_mac_world
                   (initial_state keka_mac_world))
          = probe_answer keka_mac_world 0 (n - 1).
Proof.
  assert (H : ascii_shell keka_mac_world).
  { intros t cmd s Hs. exact (keka_shell_ascii cmd s Hs). }
  split; [exact H |].
  destruct (probe_runs_checks_in_order keka_mac_world
              (initial_state keka_mac_world) H) as (n & Hn & Hc & _ & Hv & _).
  exists n. split; [exact Hn | split; [exact Hc | exact Hv]].
Defined.

(** X2.  On a host whose shell answers each command the same way whenever
    asked, and in ASCII text, the probe answers true exactly when one of
    its commands prints something: a [pgrep] of one of the sixteen
    application names, the [lsof | grep] or the [ps | grep] pipeline
    printing a character that is not white space (the codes 9 to 13 and
    the space), or [lsof /dev/console] printing a line that contains
    [screencapture] or [Screenshot].  A command that fails counts as
    silent. *)
Theorem probe_positive_iff_some_output
    (w : World) (out : string -> option string) (st : State)
    (Hsteady : steady_shell w out)
    (Hascii : forall cmd s, out cmd = Some s -> ascii_text s = true) :
  value (detectMacOSScreenCapture w st)
  = existsb (fun p => nonblank (out (pgrep_command p))) screenRecordingProcesses
    || nonblank (out lsof_grep_command)
    || nonblank (out ps_grep_command)
    || console_hit (out lsof_console_command)
  /\ (forall cmd s, out cmd = Some s -> nonblank (out cmd) = has_visible s)
  /\ (forall cmd, out cmd = None -> nonblank (out cmd) = false)
  /\ (out lsof_console_command = None -> console_hit (out lsof_console_command) = false).
Proof.
  split; [|split; [|split]].
  - destruct (detectMacOSScreenCapture_shape w st) as [Hv _]. cbv zeta in Hv.
    rewrite Hv, !Hsteady. now rewrite (pgrep_loop_steady w out _ st Hsteady).
  - intros cmd s ->. apply trim_nonempty_iff.
  - intros cmd ->. reflexivity.
  - intros ->. reflexivity.
Qed.

Lemma probe_positive_iff_some_output_witness :
  steady_shell keka_mac_world keka_shell
  /\ value (detectMacOSScreenCapture keka_mac_world (initial_state keka_mac_world))
     = true.
Proof.
  assert (H : steady_shell keka_mac_world keka_shell) by (intros t cmd; reflexivity).
  split; [exact H |].
  destruct (probe_positive_iff_some_output keka_mac_world keka_shell
              (initial_state keka_mac_world) H keka_shell_ascii) as [Hv _].
  rewrite Hv. reflexivity.
Defined.

(** X3.  A detection pass hands the shell at most 22 commands on darwin
    and at most 3 elsewhere, and exactly one, the process listing, in
    development mode off darwin. *)
Theorem pass_command_bound (w : World) (st : State) :
  List.length (exec_calls (events (detectScreenCapture w st)))
    <= (if is_darwin w then 22 else 3)
  /\ (developmentMode st = true -> is_darwin w = false ->
      exec_calls (events (detectScreenCapture w st)) = [listing_command w]).
Proof.
  pose proof (detectScreenCapture_calls w st) as Hc. cbv zeta in Hc.
  rewrite probe_step_dev, checkSpecificProcesses_dev in Hc. rewrite Hc. clear Hc.
  split.
  - destruct (is_darwin w).
    + destruct (probe_calls_prefix w
                  (after (checkSpecificProcesses w criticalProcesses st)))
        as [(n & Hn & Hp) _].
      rewrite Hp.
      assert (Hlen : List.length (firstn n probe_commands) <= 19).
      { rewrite length_firstn. lia. }
      destruct (value (checkSpecificProcesses w criticalProcesses st));
        cbn [List.length]; [lia |].
      rewrite length_app.
      destruct (_ || developmentMode st); cbn [List.length]; [lia |].
      destruct (_ || negb (is_win32 w)); cbn [List.length]; lia.
    + cbn [ret events exec_calls app value].
      destruct (value (checkSpecificProcesses w criticalProcesses st));
        cbn [List.length]; [lia |].
      destruct (false || developmentMode st); cbn [List.length]; [lia |].
      destruct (_ || negb (is_win32 w)); cbn [List.length]; lia.
  - intros Hd Hnd. rewrite Hnd, Hd. cbn [ret events exec_calls app value orb].
    destruct (value (checkSpecificProcesses w criticalProcesses st)); reflexivity.
Qed.

(* ===================================================================== *)
(** ** The Windows heuristic *)
(* ===================================================================== *)

Lemma lower_char_idem (c : ascii) : lower_char (lower_char c) = lower_char c.
Proof. destruct c as [[|] [|] [|] [|] [|] [|] [|] [|]]; reflexivity. Qed.

(** A piece of text equal to the pattern up to case is matched by the
    pattern read as a regular expression: a dot of the pattern faces a
    dot. *)
Lemma regex_match_here_literal (pat m rest : string) :
  toLowerCase m = toLowerCase pat ->
  regex_match_here pat (toLowerCase m ++ rest) = true.
Proof.
  revert m; induction pat as [|pc pat IH]; intros m H; [reflexivity |].
  destruct m as [|c m]; simpl in H; [discriminate |].
  injection H as Hc Hm. cbn [toLowerCase append regex_match_here].
  rewrite (IH m Hm), andb_true_r. unfold regex_char_i.
  destruct (Ascii.eqb pc ".") eqn:Hdot.
  - apply Ascii.eqb_eq in Hdot. subst pc. rewrite Hc. reflexivity.
  - rewrite lower_char_idem, Hc. apply Ascii.eqb_refl.
Qed.

Lemma regex_test_i_here (pat s : string) :
  regex_match_here pat s = true -> regex_test_i pat s = true.
Proof. intros H. destruct s; simpl; now rewrite H. Qed.

Lemma regex_test_i_app (pat a s : string) :
  regex_test_i pat s = true -> regex_test_i pat (a ++ s) = true.
Proof.
  intros H. induction a as [|c a IH]; [exact H |].
  cbn [append regex_test_i]. rewrite IH. apply orb_true_r.
Qed.

Lemma regex_test_i_literal (pat out : string) :
  CaseInsensitiveSubstring pat out ->
  regex_test_i pat (toLowerCase out) = true.
Proof.
  intros (a & m & b & -> & Hm). rewrite !toLowerCase_app.
  apply regex_test_i_app, regex_test_i_here, regex_match_here_literal, Hm.
Qed.

Lemma regex_match_here_prefix (pat1 pat2 m rest : string) :
  toLowerCase m = toLowerCase pat1 ->
  regex_match_here (pat1 ++ pat2) (toLowerCase m ++ rest)
  = regex_match_here pat2 rest.
Proof.
  revert m; induction pat1 as [|pc pat IH]; intros m H.
  - destruct m; [reflexivity | discriminate].
  - destruct m as [|c m]; simpl in H; [discriminate |].
    injection H as Hc Hm. cbn [toLowerCase append regex_match_here].
    rewrite (IH m Hm). unfold regex_char_i.
    destruct (Ascii.eqb pc ".") eqn:Hdot.
    + apply Ascii.eqb_eq in Hdot. subst pc. rewrite Hc. reflexivity.
    + now rewrite lower_char_idem, Hc, Ascii.eqb_refl.
Qed.

Lemma is_line_terminator_lower (c : ascii) :
  is_line_terminator (lower_char c) = is_line_terminator c.
Proof. destruct c as [[|] [|] [|] [|] [|] [|] [|] [|]]; reflexivity. Qed.

Lemma regex_match_here_dot (pat s : string) (c : ascii) :
  regex_match_here (String "." pat) (String c s)
  = negb (is_line_terminator c) && regex_match_here pat s.
Proof. reflexivity. Qed.

Lemma winlogon_wildcard (c : ascii) (rest : string) :
  is_line_terminator c = false ->
  regex_match_here "winlogon.exe"
    (toLowerCase ("winlogon" ++ String c ("exe" ++ rest))) = true.
Proof.
  intros Hc. rewrite toLowerCase_app.
  change "winlogon.exe" with ("winlogon" ++ ".exe").
  rewrite (regex_match_here_prefix "winlogon" ".exe" "winlogon"
             (toLowerCase (String c ("exe" ++ rest))) eq_refl).
  change (toLowerCase (String c ("exe" ++ rest)))
    with (String (lower_char c) (toLowerCase ("exe" ++ rest))).
  rewrite regex_match_here_dot, is_line_terminator_lower, Hc, toLowerCase_app.
  cbn [negb andb]. apply regex_match_here_literal. reflexivity.
Qed.

(** [detectWindowsScreenCapture] in closed form. *)
Lemma detectWindowsScreenCapture_run (w : World) (st : State) :
  detectWindowsScreenCapture w st =
  match exec_result w (clock st) wmic_command with
  | Some out =>
      if regex_test_i "winlogon.exe" (toLowerCase out) then
        {| value := true;
           after := set_detectedProcess "winlogon.exe" (tick_clock st);
           events :=
             [ EExec wmic_command;
               ELog "[ScreenProtection] Potential screen capture detected on Windows: winlogon.exe" ] |}
      else {| value := false; after := tick_clock st; events := [EExec wmic_command] |}
  | None =>
      {| value := false; after := tick_clock st;
         events :=
           [ EExec wmic_command;
             EError "[ScreenProtection] Error detecting Windows screen capture:" ] |}
  end.
Proof.
  unfold detectWindowsScreenCapture, bind.
  cbn [execAsync get emit modify ret bind value after events app].
  destruct (exec_result w (clock st) wmic_command) as [out|]; [|reflexivity].
  unfold captureProcesses. cbn [find].
  destruct (regex_test_i "winlogon.exe" (toLowerCase out)); reflexivity.
Qed.

(** X4.  The Windows heuristic reads its only name, [winlogon.exe], as a
    regular expression, so its dot stands for any character but a line
    break.  On ASCII listings: the heuristic answers true on every WMIC
    listing that shows [winlogon.exe] in any case of the letters, and also
    on every listing that shows [winlogon], one arbitrary ASCII character
    other than a line feed or a carriage return, and [exe].  When it
    answers true it records [winlogon.exe] as the detected process, when it
    answers false it leaves the record alone; when WMIC fails it answers
    false and logs one error. *)
Theorem windows_heuristic_reads_dot_as_wildcard (w : World) (st : State) :
  (forall out, exec_result w (clock st) wmic_command = Some out ->
     ascii_text out = true ->
     CaseInsensitiveSubstring "winlogon.exe" out ->
     value (detectWindowsScreenCapture w st) = true)
  /\ (forall a c b,
     ascii_text (a ++ "winlogon" ++ String c ("exe" ++ b)) = true ->
     is_line_terminator c = false ->
     exec_result w (clock st) wmic_command
       = Some (a ++ "winlogon" ++ String c ("exe" ++ b)) ->
     value (detectWindowsScreenCapture w st) = true)
  /\ detectedProcess (after (detectWindowsScreenCapture w st))
     = (if value (detectWindowsScreenCapture w st) then "winlogon.exe"
        else detectedProcess st)
  /\ (exec_result w (clock st) wmic_command = None ->
      value (detectWindowsScreenCapture w st) = false
      /\ events (detectWindowsScreenCapture w st)
         = [ EExec wmic_command;
             EError "[ScreenProtection] Error detecting Windows screen capture:" ]).
Proof.
  rewrite detectWindowsScreenCapture_run. split; [|split; [|split]].
  - intros out -> _ Hin. now rewrite (regex_test_i_literal _ _ Hin).
  - intros a c b _ Hc ->. rewrite toLowerCase_app.
    now rewrite (regex_test_i_app _ _ _ (regex_test_i_here _ _ (winlogon_wildcard c b Hc))).
  - destruct (exec_result w (clock st) wmic_command) as [out|]; [|reflexivity].
    destruct (regex_test_i _ _); reflexivity.
  - intros ->. split; reflexivity.
Qed.

(** A Windows host whose listing shows no [winlogon.exe] but a process
    named [winlogon_exe]. *)
Lemma windows_heuristic_reads_dot_as_wildcard_witness :
  value (detectWindowsScreenCapture wildcard_windows_world
           (initial_state wildcard_windows_world)) = true.
Proof.
  destruct (windows_heuristic_reads_dot_as_wildcard wildcard_windows_world
              (initial_state wildcard_windows_world)) as (_ & H & _).
  apply (H "svchost.exe  812  " "_"%char "  4711"); reflexivity.
Defined.

(* ===================================================================== *)
(** ** Permission broker on darwin *)
(* ===================================================================== *)

(** X5.  The permission check asks the system once on darwin and never
    elsewhere, answers true exactly when the status is ['granted'] (false
    when the query throws), and never calls the API that makes the system
    show its consent prompt; the permission request calls that API once on
    darwin and never elsewhere and answers true exactly when it yields a
    source (false when it rejects).  Neither changes the state of the
    scheduler, and each IPC handler behaves exactly as the method it
    wraps: its own platform test adds nothing. *)
Theorem permission_broker_behaviour (w : World) (st : State) :
  value (checkMacOSScreenRecordingPermission w st)
  = (if is_darwin w then
       match mediaAccessStatus w (clock st) with
       | Some status => String.eqb status "granted"
       | None => false
       end
     else true)
  /\ value (requestMacOSScreenRecordingPermission w st)
     = (if is_darwin w then
          match desktopSources w (clock st) with
          | Some n => 0 <? n
          | None => false
          end
        else true)
  /\ count is_permission_request (events (checkMacOSScreenRecordingPermission w st))
     = (if is_darwin w then 1 else 0)
  /\ count is_permission_request (events (requestMacOSScreenRecordingPermission w st))
     = (if is_darwin w then 1 else 0)
  /\ ~ In EGetSources (events (checkMacOSScreenRecordingPermission w st))
  /\ ~ In EGetMediaAccessStatus (events (requestMacOSScreenRecordingPermission w st))
  /\ frame st (after (checkMacOSScreenRecordingPermission w st))
  /\ frame st (after (requestMacOSScreenRecordingPermission w st))
  /\ ipc_check_screen_permission w st = checkMacOSScreenRecordingPermission w st
  /\ ipc_request_screen_permission w st = requestMacOSScreenRecordingPermission w st.
Proof.
  unfold ipc_check_screen_permission, ipc_request_screen_permission,
    checkMacOSScreenRecordingPermission, requestMacOSScreenRecordingPermission.
  destruct (is_darwin w); cbn [negb].
  - unfold bind, count.
    cbn [getMediaAccessStatus getSources get emit modify ret bind value after events app].
    destruct (mediaAccessStatus w (clock st)); destruct (desktopSources w (clock st));
      cbn; repeat split; try (intros H; intuition congruence).
  - cbn. repeat split; intros H; exact H.
Qed.

(* ===================================================================== *)
(** ** Runs of the process, step by step *)
(* ===================================================================== *)

Lemma Preserves_ret {A X : Type} (f : State -> X) (a : A) : Preserves f (ret a).
Proof. intros st. reflexivity. Qed.

Lemma Preserves_get {X : Type} (f : State -> X) : Preserves f get.
Proof. intros st. reflexivity. Qed.

Lemma Preserves_emit {X : Type} (f : State -> X) (e : Event) : Preserves f (emit e).
Proof. intros st. reflexivity. Qed.

Lemma Preserves_modify {X : Type} (f : State -> X) (g : State -> State) :
  (forall st, f (g st) = f st) -> Preserves f (modify g).
Proof. intros H st. apply H. Qed.

Lemma Preserves_bind {A B X : Type} (f : State -> X) (m : M A) (k : A -> M B) :
  Preserves f m -> (forall a, Preserves f (k a)) -> Preserves f (bind m k).
Proof. intros Hm Hk st. rewrite after_bind, Hk. apply Hm. Qed.

(** Walks down a computation to the places where it writes the state. *)
Ltac preserves :=
  repeat first
    [ apply Preserves_ret | apply Preserves_get | apply Preserves_emit
    | apply Preserves_modify; reflexivity
    | match goal with
      | |- Preserves _ (if ?b then _ else _) => destruct b
      | |- Preserves _ (match ?x with Some _ => _ | None => _ end) => destruct x
      end
    | apply Preserves_bind; [|intro] ].

Lemma count_app (p : Event -> bool) (a b : list Event) :
  count p (a ++ b) = count p a + count p b.
Proof. unfold count. now rewrite filter_app, length_app. Qed.

Lemma calm_counts (evs : list Event) :
  forallb calm evs = true -> count is_prompt evs = 0 /\ count is_quit evs = 0.
Proof.
  unfold count. induction evs as [|e evs IH]; [now split |].
  cbn [forallb filter]. rewrite andb_true_iff. intros [He Hevs].
  destruct (IH Hevs) as [H1 H2]. unfold calm in He.
  apply andb_true_iff in He. destruct He as [Hp Hq].
  apply negb_true_iff in Hp, Hq. now rewrite Hp, Hq.
Qed.

Lemma plain_calm (e : Event) : plain e = true -> calm e = true.
Proof. destruct e; cbv; congruence. Qed.

Lemma calm_startMonitoring (w : World) : Emits calm (startMonitoring w).
Proof.
  intros st. rewrite startMonitoring_run.
  destruct (isMonitoring st); [reflexivity |].
  destruct (protection_disabled w); reflexivity.
Qed.

Lemma calm_stopMonitoring : Emits calm stopMonitoring.
Proof.
  intros st. rewrite stopMonitoring_run.
  destruct (isMonitoring st); [|reflexivity].
  destruct (screenCaptureCheckInterval st); reflexivity.
Qed.

(** The four kinds of step in closed form. *)
Lemma step_check (w : World) (st : State) :
  after (step w OpCheckPermission st) = after (ipc_check_screen_permission w st)
  /\ events (step w OpCheckPermission st) = events (ipc_check_screen_permission w st).
Proof. cbn [step]. rewrite after_bind, events_bind. split; [reflexivity | apply app_nil_r]. Qed.

Lemma step_request (w : World) (st : State) :
  after (step w OpRequestPermission st) = after (ipc_request_screen_permission w st)
  /\ events (step w OpRequestPermission st)
     = events (ipc_request_screen_permission w st).
Proof. cbn [step]. rewrite after_bind, events_bind. split; [reflexivity | apply app_nil_r]. Qed.

Lemma step_tick (w : World) (st : State) :
  step w OpTick st =
  match screenCaptureCheckInterval st with
  | Some _ => intervalCallback w st
  | None => ret tt st
  end.
Proof.
  cbn [step]. rewrite bind_get.
  destruct (screenCaptureCheckInterval st); reflexivity.
Qed.

Lemma intervalCallback_after (w : World) (st : State) :
  after (intervalCallback w st) =
  if value (detectScreenCapture w st)
  then after (handleScreenCaptureDetected w (after (detectScreenCapture w st)))
  else after (detectScreenCapture w st).
Proof.
  unfold intervalCallback. rewrite after_bind.
  destruct (value (detectScreenCapture w st)); reflexivity.
Qed.

Lemma run_cons (w : World) (o : Op) (ops : list Op) (st : State) :
  events (run w (o :: ops) st)
  = (events (step w o st) ++ events (run w ops (after (step w o st))))%list
  /\ after (run w (o :: ops) st) = after (run w ops (after (step w o st))).
Proof. cbn [run]. rewrite events_bind, after_bind. now split. Qed.

(** The handler shows one prompt and quits once. *)
Lemma handler_counts (w : World) (st : State) :
  count is_prompt (events (handleScreenCaptureDetected w st)) = 1
  /\ count is_quit (events (handleScreenCaptureDetected w st)) = 1.
Proof.
  rewrite handleScreenCaptureDetected_events. cbv zeta.
  change (?a :: ?l ++ ?b :: ?t)%list with ([a] ++ l ++ [b] ++ t)%list.
  rewrite !count_app.
  destruct (calm_counts _ (calm_stopMonitoring st)) as [-> ->].
  destruct (messageBoxResponse w _ =? 0); split; reflexivity.
Qed.

Lemma detect_counts (w : World) (st : State) :
  count is_prompt (events (detectScreenCapture w st)) = 0
  /\ count is_quit (events (detectScreenCapture w st)) = 0.
Proof.
  apply calm_counts.
  apply (Quiet_Emits calm _ plain_calm (Quiet_detectScreenCapture w)).
Qed.

Lemma callback_counts (w : World) (st : State) :
  count is_prompt (events (intervalCallback w st))
  = (if value (detectScreenCapture w st) then 1 else 0)
  /\ count is_quit (events (intervalCallback w st))
     = (if value (detectScreenCapture w st) then 1 else 0).
Proof.
  rewrite intervalCallback_events, !count_app.
  destruct (detect_counts w st) as [-> ->].
  destruct (value (detectScreenCapture w st)); [apply handler_counts | now split].
Qed.

(** What a step shows and quits: only a tick whose pass detects does
    either, and then once each. *)
Lemma step_counts (w : World) (o : Op) (st : State) :
  count is_prompt (events (step w o st)) = count is_quit (events (step w o st))
  /\ count is_prompt (events (step w o st))
     = match o, screenCaptureCheckInterval st with
       | OpTick, Some _ => if value (detectScreenCapture w st) then 1 else 0
       | _, _ => 0
       end.
Proof.
  destruct o.
  - destruct (step_start w st) as [_ ->]. rewrite ipc_start_run. cbn [events].
    rewrite !count_app.
    destruct (calm_counts _ (calm_startMonitoring w (set_screenProtectionActive true st)))
      as [-> ->].
    now split.
  - destruct (step_stop w st) as [_ ->]. rewrite ipc_stop_run. cbn [events].
    rewrite !count_app.
    destruct (calm_counts _ (calm_stopMonitoring (set_screenProtectionActive false st)))
      as [-> ->].
    now split.
  - destruct (step_check w st) as [_ ->].
    destruct (calm_counts _ (Quiet_Emits calm _ plain_calm (Quiet_checkPermission w) st))
      as [-> ->].
    now split.
  - destruct (step_request w st) as [_ ->].
    destruct (calm_counts _ (Quiet_Emits calm _ plain_calm (Quiet_requestPermission w) st))
      as [-> ->].
    now split.
  - rewrite step_tick. destruct (screenCaptureCheckInterval st); [|now split].
    destruct (callback_counts w st) as [-> ->]. now split.
Qed.

Lemma startMonitoring_fields (w : World) (st : State) :
  developmentMode (after (startMonitoring w st)) = developmentMode st
  /\ screenProtectionActive (after (startMonitoring w st)) = screenProtectionActive st
  /\ detectedProcess (after (startMonitoring w st)) = detectedProcess st
  /\ armed (after (startMonitoring w st)) <= S (armed st).
Proof.
  rewrite startMonitoring_run. unfold armed.
  destruct (isMonitoring st); [|destruct (protection_disabled w)];
    cbn; repeat split; try reflexivity; destruct (screenCaptureCheckInterval st); lia.
Qed.

Lemma stopMonitoring_fields (st : State) :
  developmentMode (after (stopMonitoring st)) = developmentMode st
  /\ screenProtectionActive (after (stopMonitoring st)) = screenProtectionActive st
  /\ detectedProcess (after (stopMonitoring st)) = detectedProcess st
  /\ armed (after (stopMonitoring st)) <= armed st
  /\ (isMonitoring st = true -> armed (after (stopMonitoring st)) = 0).
Proof.
  rewrite stopMonitoring_run. unfold armed.
  destruct (isMonitoring st) eqn:Hm.
  - destruct (screenCaptureCheckInterval st) eqn:Ht; cbn; rewrite ?Ht;
      repeat split; lia.
  - repeat split; try reflexivity; try discriminate;
      cbn; destruct (screenCaptureCheckInterval st); lia.
Qed.

Lemma detect_keeps_detectedProcess (w : World) :
  is_win32 w = false -> Preserves detectedProcess (detectScreenCapture w).
Proof.
  intros Hw. unfold detectScreenCapture. rewrite Hw.
  assert (Hloop : forall names, Preserves detectedProcess (pgrep_loop w names)).
  { induction names as [|n names IH]; cbn [pgrep_loop]; preserves; exact IH. }
  assert (Hmac : Preserves detectedProcess (detectMacOSScreenCapture w)).
  { unfold detectMacOSScreenCapture. apply Preserves_bind; [apply Hloop | intro].
    preserves. }
  apply Preserves_bind; [unfold checkSpecificProcesses; preserves | intro].
  destruct a; [preserves |].
  apply Preserves_bind; [destruct (is_darwin w); [exact Hmac | preserves] | intro].
  destruct a; [preserves |].
  apply Preserves_bind; [preserves | intros s].
  destruct (developmentMode s); [preserves |].
  apply Preserves_bind; [unfold checkSuspiciousProcesses; preserves | intro].
  destruct a; preserves.
Qed.

(** What a step does to the fields that no start or stop writes. *)
Lemma step_fields (w : World) (o : Op) (st : State) :
  developmentMode (after (step w o st)) = developmentMode st
  /\ screenProtectionActive (after (step w o st))
     = match o with
       | OpStart => true
       | OpStop => false
       | _ => screenProtectionActive st
       end
  /\ (is_win32 w = false ->
      detectedProcess (after (step w o st)) = detectedProcess st).
Proof.
  destruct o.
  - destruct (step_start w st) as [-> _]. rewrite ipc_start_run. cbn [after].
    destruct (startMonitoring_fields w (set_screenProtectionActive true st))
      as (-> & -> & -> & _).
    now repeat split.
  - destruct (step_stop w st) as [-> _]. rewrite ipc_stop_run. cbn [after].
    destruct (stopMonitoring_fields (set_screenProtectionActive false st))
      as (-> & -> & -> & _).
    now repeat split.
  - destruct (step_check w st) as [-> _].
    destruct (Quiet_checkPermission w st) as [(_ & F2 & _ & F4 & _) _].
    split; [exact F2 | split; [exact F4 |]]. intros _.
    unfold ipc_check_screen_permission, checkMacOSScreenRecordingPermission.
    destruct (is_darwin w); [|reflexivity]. cbn [negb].
    unfold bind; cbn [getMediaAccessStatus get emit modify ret bind value after].
    destruct (mediaAccessStatus w (clock st)); reflexivity.
  - destruct (step_request w st) as [-> _].
    destruct (Quiet_requestPermission w st) as [(_ & F2 & _ & F4 & _) _].
    split; [exact F2 | split; [exact F4 |]]. intros _.
    unfold ipc_request_screen_permission, requestMacOSScreenRecordingPermission.
    destruct (is_darwin w); [|reflexivity]. cbn [negb].
    unfold bind; cbn [getSources get emit modify ret bind value after].
    destruct (desktopSources w (clock st)); reflexivity.
  - rewrite step_tick. destruct (screenCaptureCheckInterval st); [|now repeat split].
    rewrite intervalCallback_after.
    destruct (Quiet_detectScreenCapture w st) as [(_ & F2 & _ & F4 & _) _].
    destruct (value (detectScreenCapture w st)).
    + rewrite handleScreenCaptureDetected_after. cbn [tick_clock developmentMode
        screenProtectionActive detectedProcess].
      destruct (stopMonitoring_fields (after (detectScreenCapture w st)))
        as (-> & -> & -> & _).
      split; [exact F2 | split; [exact F4 |]]. intros Hw.
      apply (detect_keeps_detectedProcess w Hw).
    + split; [exact F2 | split; [exact F4 |]]. intros Hw.
      apply (detect_keeps_detectedProcess w Hw).
Qed.

Lemma run_fields (w : World) (ops : list Op) (st : State) :
  developmentMode (after (run w ops st)) = developmentMode st
  /\ screenProtectionActive (after (run w ops st))
     = last_request ops (screenProtectionActive st)
  /\ (is_win32 w = false ->
      detectedProcess (after (run w ops st)) = detectedProcess st).
Proof.
  revert st; induction ops as [|o ops IH]; intros st; [now repeat split |].
  destruct (run_cons w o ops st) as [_ ->].
  destruct (IH (after (step w o st))) as (-> & -> & H3).
  destruct (step_fields w o st) as (-> & -> & K3).
  split; [reflexivity | split].
  - cbn [last_request fold_left]. destruct o; reflexivity.
  - intros Hw. now rewrite (H3 Hw), (K3 Hw).
Qed.

(** X6.  What [get-screen-protection-status] reports as active is decided
    by the last start or stop request alone.  A detection does not change
    it: after a callback that detected a capture and stopped the scheduler
    the status still says what it said before, and so it does when the
    protection is switched off by the environment. *)
Theorem status_follows_last_request (w : World) (ops : list Op) (st : State) :
  value (ipc_get_screen_protection_status w (after (run w ops st)))
  = (last_request ops (screenProtectionActive st), platform w)
  /\ (value (detectScreenCapture w st) = true ->
      isMonitoring (after (intervalCallback w st)) = false
      /\ value (ipc_get_screen_protection_status w (after (intervalCallback w st)))
         = (screenProtectionActive st, platform w)).
Proof.
  split.
  - unfold ipc_get_screen_protection_status. rewrite value_bind. cbn [get ret value after].
    now destruct (run_fields w ops st) as (_ & -> & _).
  - intros Hd. rewrite intervalCallback_after, Hd, handleScreenCaptureDetected_after.
    split.
    + cbn [tick_clock isMonitoring]. apply stopMonitoring_isMonitoring.
    + unfold ipc_get_screen_protection_status. rewrite value_bind.
      cbn [get ret value after tick_clock screenProtectionActive].
      destruct (stopMonitoring_fields (after (detectScreenCapture w st)))
        as (_ & -> & _).
      now destruct (Quiet_detectScreenCapture w st) as [(_ & _ & _ & -> & _) _].
Qed.

Lemma status_follows_last_request_witness :
  isMonitoring
    (after (run obs_lower_world [OpStart; OpTick] (initial_state obs_lower_world)))
  = false
  /\ value (ipc_get_screen_protection_status obs_lower_world
              (after (run obs_lower_world [OpStart; OpTick]
                        (initial_state obs_lower_world))))
     = (true, "linux").
Proof.
  split; [reflexivity |].
  destruct (status_follows_last_request obs_lower_world [OpStart; OpTick]
              (initial_state obs_lower_world)) as [H _].
  exact H.
Defined.

(** Prompts and quits come in pairs. *)
Lemma run_prompts_equal_quits (w : World) (ops : list Op) (st : State) :
  count is_prompt (events (run w ops st)) = count is_quit (events (run w ops st)).
Proof.
  revert st; induction ops as [|o ops IH]; intros st; [reflexivity |].
  destruct (run_cons w o ops st) as [-> _]. rewrite !count_app, IH.
  now destruct (step_counts w o st) as [-> _].
Qed.

Lemma paired_from_calm (pending : bool) (evs rest : list Event) :
  forallb calm evs = true ->
  paired_from pending (evs ++ rest) = paired_from pending rest.
Proof.
  induction evs as [|e evs IH]; [reflexivity |].
  cbn [forallb app paired_from]. rewrite andb_true_iff. intros [He Hevs].
  unfold calm in He. apply andb_true_iff in He. destruct He as [Hp Hq].
  apply negb_true_iff in Hp, Hq. rewrite Hp, Hq. now apply IH.
Qed.

(** The handler shows its alert and then quits, in this order. *)
Lemma handler_paired (w : World) (st : State) (rest : list Event) :
  paired_from false (events (handleScreenCaptureDetected w st) ++ rest)
  = paired_from false rest.
Proof.
  rewrite handleScreenCaptureDetected_events. cbv zeta.
  rewrite <- app_comm_cons. cbn [paired_from is_prompt is_quit].
  rewrite <- app_assoc, (paired_from_calm _ _ _ (calm_stopMonitoring st)).
  rewrite <- app_comm_cons. cbn [paired_from is_prompt is_quit negb andb].
  destruct (messageBoxResponse w _ =? 0); reflexivity.
Qed.

Lemma step_paired (w : World) (o : Op) (st : State) (rest : list Event) :
  paired_from false (events (step w o st) ++ rest) = paired_from false rest.
Proof.
  destruct o.
  - destruct (step_start w st) as [_ ->]. rewrite ipc_start_run. cbn [events].
    rewrite <- app_assoc,
      (paired_from_calm _ _ _
         (calm_startMonitoring w (set_screenProtectionActive true st))).
    reflexivity.
  - destruct (step_stop w st) as [_ ->]. rewrite ipc_stop_run. cbn [events].
    rewrite <- app_assoc,
      (paired_from_calm _ _ _
         (calm_stopMonitoring (set_screenProtectionActive false st))).
    reflexivity.
  - destruct (step_check w st) as [_ ->].
    apply paired_from_calm.
    apply (Quiet_Emits calm _ plain_calm (Quiet_checkPermission w)).
  - destruct (step_request w st) as [_ ->].
    apply paired_from_calm.
    apply (Quiet_Emits calm _ plain_calm (Quiet_requestPermission w)).
  - rewrite step_tick. destruct (screenCaptureCheckInterval st); [|reflexivity].
    rewrite intervalCallback_events, <- app_assoc.
    rewrite (paired_from_calm _ _ _
               (Quiet_Emits calm _ plain_calm (Quiet_detectScreenCapture w) st)).
    destruct (value (detectScreenCapture w st)); [apply handler_paired | reflexivity].
Qed.

(** X7.  Along every sequence of start, stop and permission requests and
    timer ticks, each run to completion before the next, and from any
    state, alerts and quits alternate: every alert is followed by exactly
    one [app.quit()], direct or deferred, before any other alert and
    before the sequence ends, and nothing quits the application unless its
    alert was shown just before.  In particular the process shows as many
    alerts as it quits. *)
Theorem every_prompt_quits_once (w : World) (ops : list Op) (st : State) :
  paired_from false (events (run w ops st)) = true
  /\ count is_prompt (events (run w ops st)) = count is_quit (events (run w ops st)).
Proof.
  split; [|exact (run_prompts_equal_quits w ops st)].
  revert st; induction ops as [|o ops IH]; intros st; [reflexivity |].
  destruct (run_cons w o ops st) as [-> _]. rewrite step_paired. apply IH.
Qed.

(* ===================================================================== *)
(** ** A shell that fails *)
(* ===================================================================== *)

Lemma broken_pass_negative (w : World) (st : State) :
  shell_broken w -> value (detectScreenCapture w st) = false.
Proof.
  intros Hb. rewrite detectScreenCapture_value. cbv zeta.
  rewrite checkSpecificProcesses_value, checkSuspiciousProcesses_value, Hb, Hb.
  rewrite detectWindowsScreenCapture_run, Hb. cbn [value].
  rewrite andb_false_r, orb_false_r, andb_false_r, orb_false_r. cbn [orb].
  destruct (is_darwin w); [|reflexivity].
  destruct (detectMacOSScreenCapture_shape w
              (after (checkSpecificProcesses w criticalProcesses st))) as [-> _].
  rewrite !Hb.
  rewrite (pgrep_loop_steady w (fun _ => None) screenRecordingProcesses _ Hb).
  reflexivity.
Qed.

Lemma no_quit_no_delay (evs : list Event) :
  count is_quit evs = 0 -> termination_delay evs = None.
Proof.
  unfold count. induction evs as [|e evs IH]; [reflexivity |].
  destruct e; cbn [filter is_quit List.length termination_delay];
    try discriminate; exact IH.
Qed.

Lemma session_cons (w : World) (r : Request) (reqs : list Request) (st : State) :
  events (session w (r :: reqs) st)
  = (events (serve w r st) ++ events (session w reqs (after (serve w r st))))%list
  /\ after (session w (r :: reqs) st) = after (session w reqs (after (serve w r st))).
Proof. cbn [session]. rewrite events_bind, after_bind. now split. Qed.

(** With a shell that fails no step shows the alert. *)
Lemma broken_step_counts (w : World) (o : Op) (st : State) :
  shell_broken w ->
  count is_prompt (events (step w o st)) = 0
  /\ count is_quit (events (step w o st)) = 0.
Proof.
  intros Hb. destruct (step_counts w o st) as [Hq Hp]. rewrite <- Hq, Hp.
  rewrite (broken_pass_negative w st Hb).
  destruct o; try (now split). now destruct (screenCaptureCheckInterval st).
Qed.

(** X8.  When every shell command fails, every detection pass answers
    false, on every platform and in every mode, and no sequence of start,
    stop and permission requests and timer ticks ever shows the alert or
    quits the application: a detector that cannot look does not detect.
    When the ['app-quit'] messages of the renderer and the closing of the
    last window are let in between these operations, there is still no
    alert, and the process quits once for each ['app-quit'] message and,
    off darwin, once for each closing of the last window, and never
    otherwise. *)
Theorem broken_shell_never_detects
    (w : World) (ops : list Op) (reqs : list Request) (st : State)
    (Hbroken : shell_broken w) :
  value (detectScreenCapture w st) = false
  /\ count is_prompt (events (run w ops st)) = 0
  /\ termination_delay (events (run w ops st)) = None
  /\ count is_prompt (events (session w reqs st)) = 0
  /\ count is_quit (events (session w reqs st))
     = List.length (filter (asks_to_quit w) reqs).
Proof.
  split; [now apply broken_pass_negative |].
  assert (Hp : count is_prompt (events (run w ops st)) = 0).
  { revert st; induction ops as [|o ops IH]; intros st; [reflexivity |].
    destruct (run_cons w o ops st) as [-> _]. rewrite count_app, IH.
    now destruct (broken_step_counts w o st Hbroken) as [-> _]. }
  split; [exact Hp |].
  split; [apply no_quit_no_delay; now rewrite <- run_prompts_equal_quits |].
  clear Hp. revert st; induction reqs as [|r reqs IH]; intros st; [now split |].
  destruct (session_cons w r reqs st) as [-> _]. rewrite !count_app.
  destruct (IH (after (serve w r st))) as [-> ->].
  destruct r as [o | |]; cbn [serve filter asks_to_quit].
  - now destruct (broken_step_counts w o st Hbroken) as [-> ->].
  - split; reflexivity.
  - unfold window_all_closed. destruct (is_darwin w); split; reflexivity.
Qed.

Lemma broken_shell_never_detects_witness :
  shell_broken broken_world
  /\ count is_prompt
       (events (run broken_world [OpStart; OpTick; OpTick; OpStop; OpStart; OpTick]
                    (initial_state broken_world))) = 0
  /\ count is_quit
       (events (session broken_world
                  [Detector OpStart; Detector OpTick; WindowAllClosed; AppQuit]
                  (initial_state broken_world))) = 2.
Proof.
  assert (H : shell_broken broken_world) by (intros t cmd; reflexivity).
  split; [exact H |].
  destruct (broken_shell_never_detects broken_world
              [OpStart; OpTick; OpTick; OpStop; OpStart; OpTick]
              [Detector OpStart; Detector OpTick; WindowAllClosed; AppQuit]
              (initial_state broken_world) H) as (_ & Hp & _ & _ & Hq).
  split; [exact Hp | exact Hq].
Defined.

(* ===================================================================== *)
(** ** The interval and the text of the alert *)
(* ===================================================================== *)

Lemma calm_period (w : World) (e : Event) :
  match e with ESetInterval _ _ => false | _ => true end = true ->
  period_ok w e = true.
Proof. destruct e; simpl; congruence. Qed.

Lemma forallb_impl (p q : Event -> bool) (evs : list Event) :
  (forall e, p e = true -> q e = true) ->
  forallb p evs = true -> forallb q evs = true.
Proof.
  intros H. rewrite !forallb_forall. intros Hp e He. apply H, Hp, He.
Qed.

Lemma plain_period (w : World) (e : Event) : plain e = true -> period_ok w e = true.
Proof. destruct e; simpl; congruence. Qed.

Lemma handler_period (w : World) : Emits (period_ok w) (handleScreenCaptureDetected w).
Proof.
  intros st. rewrite handleScreenCaptureDetected_events. cbv zeta.
  cbn [forallb period_ok andb]. rewrite forallb_app. apply andb_true_iff. split.
  - rewrite stopMonitoring_run.
    destruct (isMonitoring st); [destruct (screenCaptureCheckInterval st) |];
      reflexivity.
  - destruct (messageBoxResponse w _ =? 0); reflexivity.
Qed.

Lemma step_period (w : World) (o : Op) (st : State) :
  developmentMode st = isDevelopment w ->
  forallb (period_ok w) (events (step w o st)) = true.
Proof.
  intros Hd. destruct o.
  - destruct (step_start w st) as [_ ->]. rewrite ipc_start_run. cbn [events].
    rewrite forallb_app, startMonitoring_run.
    cbn [isMonitoring developmentMode nextHandle set_screenProtectionActive].
    rewrite Hd.
    destruct (isMonitoring st); [reflexivity |].
    destruct (protection_disabled w); [reflexivity |].
    cbn [events forallb period_ok andb]. now rewrite Nat.eqb_refl.
  - destruct (step_stop w st) as [_ ->]. rewrite ipc_stop_run. cbn [events].
    rewrite forallb_app, stopMonitoring_run.
    cbn [isMonitoring screenCaptureCheckInterval set_screenProtectionActive].
    destruct (isMonitoring st); [destruct (screenCaptureCheckInterval st) |];
      reflexivity.
  - destruct (step_check w st) as [_ ->].
    apply (Quiet_Emits _ _ (plain_period w) (Quiet_checkPermission w)).
  - destruct (step_request w st) as [_ ->].
    apply (Quiet_Emits _ _ (plain_period w) (Quiet_requestPermission w)).
  - rewrite step_tick. destruct (screenCaptureCheckInterval st); [|reflexivity].
    rewrite intervalCallback_events, forallb_app.
    rewrite (Quiet_Emits _ _ (plain_period w) (Quiet_detectScreenCapture w) st).
    destruct (value (detectScreenCapture w st)); [apply handler_period | reflexivity].
Qed.

(** X9.  Every interval timer the process ever sets has the period of
    the mode the process was started in, 5000 ms in development and
    2000 ms in production, and the mode never changes during a run. *)
Theorem interval_period_follows_mode (w : World) (ops : list Op) :
  forallb (period_ok w) (events (run w ops (initial_state w))) = true
  /\ developmentMode (after (run w ops (initial_state w))) = isDevelopment w.
Proof.
  split; [|now destruct (run_fields w ops (initial_state w)) as (-> & _)].
  assert (H : forall st, developmentMode st = isDevelopment w ->
                forallb (period_ok w) (events (run w ops st)) = true).
  { induction ops as [|o ops IH]; intros st Hd; [reflexivity |].
    destruct (run_cons w o ops st) as [-> _].
    rewrite forallb_app, (step_period w o st Hd), IH; [reflexivity |].
    now destruct (step_fields w o st) as (-> & _). }
  now apply H.
Qed.

Lemma calm_anonymous (e : Event) : is_prompt e = false -> anonymous_prompt e = true.
Proof. destruct e; simpl; congruence. Qed.

Lemma no_prompt_anonymous (evs : list Event) :
  count is_prompt evs = 0 -> forallb anonymous_prompt evs = true.
Proof.
  unfold count. induction evs as [|e evs IH]; [reflexivity |].
  cbn [filter forallb]. destruct (is_prompt e) eqn:E; [discriminate |].
  intros H. now rewrite (calm_anonymous e E), IH.
Qed.

Lemma handler_anonymous (w : World) (st : State) :
  detectedProcess st = EmptyString ->
  forallb anonymous_prompt (events (handleScreenCaptureDetected w st)) = true.
Proof.
  intros Hd. rewrite handleScreenCaptureDetected_events. cbv zeta.
  destruct (stopMonitoring_fields st) as (_ & _ & -> & _). rewrite Hd.
  cbn [truthy forallb anonymous_prompt andb]. rewrite forallb_app.
  rewrite (no_prompt_anonymous _ (proj1 (calm_counts _ (calm_stopMonitoring st)))).
  cbn [forallb anonymous_prompt andb]. rewrite String.eqb_refl.
  destruct (messageBoxResponse w _ =? 0); reflexivity.
Qed.

Lemma step_anonymous (w : World) (o : Op) (st : State) :
  is_win32 w = false -> detectedProcess st = EmptyString ->
  forallb anonymous_prompt (events (step w o st)) = true.
Proof.
  intros Hw Hd.
  destruct o;
    try (apply no_prompt_anonymous;
         match goal with
         | |- context [step w ?o st] => now destruct (step_counts w o st) as [_ ->]
         end).
  rewrite step_tick. destruct (screenCaptureCheckInterval st); [|reflexivity].
  rewrite intervalCallback_events, forallb_app.
  rewrite (no_prompt_anonymous _ (proj1 (detect_counts w st))).
  destruct (value (detectScreenCapture w st)); [|reflexivity].
  apply handler_anonymous.
  now rewrite (detect_keeps_detectedProcess w Hw st).
Qed.

(** X10.  Off win32 the record of the detected process is never written:
    it stays empty along every run, so every alert the process shows
    carries the fixed text and never names the process that was found,
    whichever signature or probe fired. *)
Theorem alert_names_no_process_off_win32
    (w : World) (ops : list Op) (Hplatform : platform w <> "win32") :
  detectedProcess (after (run w ops (initial_state w))) = EmptyString
  /\ forallb anonymous_prompt (events (run w ops (initial_state w))) = true.
Proof.
  assert (Hw : is_win32 w = false) by (unfold is_win32; now apply String.eqb_neq).
  split; [now destruct (run_fields w ops (initial_state w)) as (_ & _ & ->) |].
  assert (H : forall st, detectedProcess st = EmptyString ->
                forallb anonymous_prompt (events (run w ops st)) = true).
  { induction ops as [|o ops IH]; intros st Hd; [reflexivity |].
    destruct (run_cons w o ops st) as [-> _].
    rewrite forallb_app, (step_anonymous w o st Hw Hd), IH; [reflexivity |].
    destruct (step_fields w o st) as (_ & _ & K). now rewrite (K Hw). }
  now apply H.
Qed.

Lemma alert_names_no_process_off_win32_witness :
  platform obs_lower_world <> "win32"
  /\ forallb anonymous_prompt
       (events (run obs_lower_world [OpStart; OpTick] (initial_state obs_lower_world)))
     = true
  /\ count is_prompt
       (events (run obs_lower_world [OpStart; OpTick] (initial_state obs_lower_world)))
     = 1.
Proof.
  assert (H : platform obs_lower_world <> "win32") by discriminate.
  split; [exact H |]. split; [|reflexivity].
  apply (alert_names_no_process_off_win32 obs_lower_world [OpStart; OpTick] H).
Defined.

(* ===================================================================== *)
(** ** The hook and the main process *)
(* ===================================================================== *)








(* ===================================================================== *)
(** ** Keyboard shortcuts *)
(* ===================================================================== *)

(** X12.  The twelve clauses of [handleKeyDown] amount to five: the key
    is [PrintScreen] or [F12], whatever the modifiers (so the clauses with
    Alt or Ctrl add nothing); Meta+Shift with [3], [4], [5] or [6];
    Ctrl+Shift+[I]; Meta+Alt+[I]; Meta or Ctrl with [u].  A key pressed
    with neither Meta nor Ctrl, other than [PrintScreen] and [F12], is
    never blocked and does nothing; a key that is blocked always leads to
    the logout timer, whatever the user answers to the prompt. *)
Theorem keydown_shortcuts (event : Hook.KeyboardEvent) (userConfirmed : bool) :
  Hook.is_screenshot_shortcut event
  = (String.eqb (Hook.key event) "PrintScreen"
     || String.eqb (Hook.key event) "F12"
     || (Hook.metaKey event && Hook.shiftKey event
         && (String.eqb (Hook.key event) "3" || String.eqb (Hook.key event) "4"
             || String.eqb (Hook.key event) "5" || String.eqb (Hook.key event) "6"))
     || (Hook.ctrlKey event && Hook.shiftKey event && String.eqb (Hook.key event) "I")
     || (Hook.metaKey event && Hook.altKey event && String.eqb (Hook.key event) "I")
     || ((Hook.metaKey event || Hook.ctrlKey event)
         && String.eqb (Hook.key event) "u"))
  /\ (Hook.metaKey event = false -> Hook.ctrlKey event = false ->
      Hook.key event <> "PrintScreen" -> Hook.key event <> "F12" ->
      Hook.handleKeyDown event userConfirmed = (true, []))
  /\ (Hook.is_screenshot_shortcut event = true ->
      fst (Hook.handleKeyDown event userConfirmed) = false
      /\ In Hook.EPreventDefault (snd (Hook.handleKeyDown event userConfirmed))
      /\ In (Hook.EPage (Renderer.ESetTimeoutLogout (if userConfirmed then 500 else 100)))
            (snd (Hook.handleKeyDown event userConfirmed))).
Proof.
  split; [|split].
  - unfold Hook.is_screenshot_shortcut.
    destruct (Hook.metaKey event), (Hook.shiftKey event), (Hook.altKey event),
      (Hook.ctrlKey event);
      cbn [andb orb];
      destruct (String.eqb (Hook.key event) "PrintScreen");
      destruct (String.eqb (Hook.key event) "F12");
      destruct (String.eqb (Hook.key event) "3");
      destruct (String.eqb (Hook.key event) "4");
      destruct (String.eqb (Hook.key event) "5");
      destruct (String.eqb (Hook.key event) "6");
      destruct (String.eqb (Hook.key event) "I");
      destruct (String.eqb (Hook.key event) "u"); reflexivity.
  - intros Hm Hc Hp Hf. unfold Hook.handleKeyDown, Hook.is_screenshot_shortcut.
    apply String.eqb_neq in Hp, Hf. rewrite Hm, Hc, Hp, Hf.
    destruct (Hook.altKey event); reflexivity.
  - intros H. unfold Hook.handleKeyDown. rewrite H. cbn [fst snd].
    split; [reflexivity | split; [now left |]].
    apply in_or_app. right. unfold Renderer.handleScreenshotDetected. cbn [map].
    right. right. now left.
Qed.

Lemma keydown_shortcuts_witness :
  Hook.handleKeyDown
    {| Hook.key := "a"; Hook.metaKey := false; Hook.shiftKey := true;
       Hook.altKey := true; Hook.ctrlKey := false |} true
  = (true, []).
Proof.
  destruct (keydown_shortcuts
              {| Hook.key := "a"; Hook.metaKey := false; Hook.shiftKey := true;
                 Hook.altKey := true; Hook.ctrlKey := false |} true) as (_ & H & _).
  apply H; [reflexivity | reflexivity | discriminate | discriminate].
Defined.

(* ===================================================================== *)
(** ** The application shell and the consent modal *)
(* ===================================================================== *)

Lemma getItem_removeItem (k : string) (s : App.Storage) :
  App.getItem k (App.removeItem k s) = None.
Proof.
  induction s as [|[k' v] s IH]; [reflexivity |].
  cbn [App.removeItem filter fst]. destruct (String.eqb k' k) eqn:E; cbn [negb].
  - exact IH.
  - cbn [App.getItem]. rewrite E. exact IH.
Qed.

Lemma getItem_removeItem_other (k k' : string) (s : App.Storage) :
  k' <> k -> App.getItem k' (App.removeItem k s) = App.getItem k' s.
Proof.
  intros Hne. induction s as [|[k0 v] s IH]; [reflexivity |].
  cbn [App.removeItem filter fst App.getItem].
  destruct (String.eqb k0 k) eqn:E; cbn [negb].
  - apply String.eqb_eq in E. subst k0.
    assert (Hk : String.eqb k k' = false) by (apply String.eqb_neq; congruence).
    rewrite Hk. exact IH.
  - cbn [App.getItem]. destruct (String.eqb k0 k'); [reflexivity | exact IH].
Qed.

Lemma getItem_setItem (k v : string) (s : App.Storage) :
  App.getItem k (App.setItem k v s) = Some v.
Proof. unfold App.setItem. cbn [App.getItem]. now rewrite String.eqb_refl. Qed.

Lemma getItem_setItem_other (k k' v : string) (s : App.Storage) :
  k' <> k -> App.getItem k' (App.setItem k v s) = App.getItem k' s.
Proof.
  intros Hne. unfold App.setItem. cbn [App.getItem].
  assert (Hk : String.eqb k k' = false) by (apply String.eqb_neq; congruence).
  rewrite Hk. now apply getItem_removeItem_other.
Qed.

(** X13.  The effect that runs when [InnerApp] mounts first removes the
    stored consent and then reads it, so it finds nothing: whatever the
    storage holds, the state is left as it was and the stored answer is
    gone.  An answer given in one session, accepted or declined, is
    therefore stored by [handlePrivacyConsent] and dropped at the next
    launch, where the consent modal is shown again. *)
Theorem stored_consent_is_never_honoured
    (s : App.Storage) (a : App.State) (granted can_send : bool) (now : string) :
  App.consent_effect s a = (App.removeItem App.consent_key s, a)
  /\ App.getItem App.consent_key (fst (App.consent_effect s a)) = None
  /\ App.getItem App.consent_key
       (fst (fst (App.handlePrivacyConsent granted can_send now s a)))
     = Some (if granted then "true" else "false")
  /\ App.showPrivacyConsent
       (snd (App.consent_effect
               (fst (fst (App.handlePrivacyConsent granted can_send now s a)))
               App.initial)) = true
  /\ forall loading isAuthenticated,
       loading = false ->
       App.render loading isAuthenticated
         (snd (App.consent_effect
                 (fst (fst (App.handlePrivacyConsent granted can_send now s a)))
                 App.initial))
       = App.VConsentModal.
Proof.
  assert (H : forall s0 a0,
            App.consent_effect s0 a0 = (App.removeItem App.consent_key s0, a0)).
  { intros s0 a0. unfold App.consent_effect. now rewrite getItem_removeItem. }
  rewrite !H. cbn [fst snd]. split; [reflexivity |].
  split; [apply getItem_removeItem |]. split.
  - unfold App.handlePrivacyConsent. destruct granted; cbn [fst].
    + rewrite getItem_setItem_other by discriminate. apply getItem_setItem.
    + apply getItem_setItem.
  - split; [reflexivity |]. intros loading isAuthenticated ->. reflexivity.
Qed.

(** With a known page name and no user, the layout is not rendered. *)
Lemma known_auth_page_no_layout (a : App.State) (content : option App.Content)
    (isProtected : bool) :
  App.known_auth_page (App.authPage a) = true ->
  App.render false false a <> App.VLayout content isProtected.
Proof.
  unfold App.known_auth_page, App.render. intros Hk.
  destruct (App.showPrivacyConsent a); [discriminate |]. cbn [negb].
  destruct (String.eqb (App.authPage a) "login"); [discriminate |].
  destruct (String.eqb (App.authPage a) "register"); [discriminate |].
  destruct (String.eqb (App.authPage a) "forgot"); [discriminate |].
  destruct (String.eqb (App.authPage a) "reset"); [discriminate |].
  discriminate Hk.
Qed.

(** X14.  [InnerApp] shows the application layout only when loading is
    over and the consent modal has been answered, and then either the user
    is authenticated or [authPage] holds none of the four names
    [login], [register], [forgot], [reset]: the four tests on [authPage]
    fall through, so when [LoginPage] navigates to any other name a user
    who is not authenticated is shown the layout, with the protection
    badge off.  While [authPage] holds one of the four names, as it does
    at the start and after every [onBack], the layout is shown to
    authenticated users only.  The badge of the layout always shows the
    authentication, not the state of the protection; a page name other
    than the four known ones gives a layout with no content; and the
    protection is asked to start exactly when the user is authenticated
    and has granted the consent, and to stop otherwise. *)
Theorem layout_when_authenticated_or_auth_page_unknown
    (loading isAuthenticated : bool) (a : App.State) :
  (forall content isProtected,
      App.render loading isAuthenticated a = App.VLayout content isProtected ->
      loading = false /\ App.showPrivacyConsent a = false
      /\ isProtected = isAuthenticated
      /\ (isAuthenticated = true \/ App.known_auth_page (App.authPage a) = false))
  /\ (loading = false -> App.showPrivacyConsent a = false ->
      isAuthenticated = false -> App.known_auth_page (App.authPage a) = false ->
      exists content,
        App.render loading isAuthenticated a = App.VLayout content false)
  /\ (App.known_auth_page (App.authPage a) = true ->
      forall content isProtected,
        App.render loading isAuthenticated a = App.VLayout content isProtected ->
        isAuthenticated = true)
  /\ App.known_auth_page (App.authPage App.initial) = true
  /\ App.known_auth_page (App.authPage (App.onBack a)) = true
  /\ (forall p, App.authPage (App.onNavigate p a) = p)
  /\ (loading = false -> App.showPrivacyConsent a = false -> isAuthenticated = true ->
      App.page a <> "library" -> App.page a <> "mylist" ->
      App.page a <> "mycloud" -> App.page a <> "profile" ->
      App.render loading isAuthenticated a = App.VLayout None true)
  /\ (App.protection_effect isAuthenticated a = System.CallStart
      <-> isAuthenticated = true /\ App.privacyConsentGiven a = true).
Proof.
  assert (Hlayout : forall content isProtected,
      App.render loading isAuthenticated a = App.VLayout content isProtected ->
      loading = false /\ App.showPrivacyConsent a = false
      /\ isProtected = isAuthenticated
      /\ (isAuthenticated = true \/ App.known_auth_page (App.authPage a) = false)).
  { intros content isProtected H.
    destruct loading; [discriminate H |].
    destruct (App.showPrivacyConsent a) eqn:Hs;
      [unfold App.render in H; rewrite Hs in H; discriminate H |].
    split; [reflexivity | split; [reflexivity |]].
    destruct isAuthenticated.
    - unfold App.render in H. rewrite Hs in H. cbn [negb] in H.
      injection H as _ <-. split; [reflexivity | now left].
    - destruct (App.known_auth_page (App.authPage a)) eqn:Hk.
      + exfalso. exact (known_auth_page_no_layout a content isProtected Hk H).
      + split; [|now right].
        unfold App.known_auth_page in Hk. apply orb_false_iff in Hk.
        destruct Hk as [Hk H4]. apply orb_false_iff in Hk.
        destruct Hk as [Hk H3]. apply orb_false_iff in Hk. destruct Hk as [H1 H2].
        unfold App.render in H. rewrite Hs, H1, H2, H3, H4 in H. cbn [negb] in H.
        now injection H as _ <-. }
  split; [exact Hlayout |]. split.
  { intros -> Hs -> Hk.
    unfold App.known_auth_page in Hk. apply orb_false_iff in Hk.
    destruct Hk as [Hk H4]. apply orb_false_iff in Hk.
    destruct Hk as [Hk H3]. apply orb_false_iff in Hk. destruct Hk as [H1 H2].
    unfold App.render. rewrite Hs, H1, H2, H3, H4. cbn [negb]. eexists. reflexivity. }
  split.
  { intros Hk content isProtected H.
    destruct (Hlayout content isProtected H) as (_ & _ & _ & [Ha | Hn]);
      [exact Ha | congruence]. }
  split; [reflexivity |]. split; [reflexivity |]. split; [reflexivity |]. split.
  - intros -> Hs -> H1 H2 H3 H4. unfold App.render. rewrite Hs. cbn [negb].
    apply String.eqb_neq in H1, H2, H3, H4. now rewrite H1, H2, H3, H4.
  - unfold App.protection_effect.
    destruct isAuthenticated, (App.privacyConsentGiven a); cbn [andb];
      split; try discriminate; try tauto; intros [? ?]; discriminate.
Qed.

(** From the first screen, with the modal answered and nobody signed in,
    a navigation of [LoginPage] to [dashboard] shows the library inside
    the layout. *)
Lemma layout_when_authenticated_or_auth_page_unknown_witness :
  App.render false false
    (App.onNavigate "dashboard"
       (snd (fst (App.handlePrivacyConsent true true "2025-01-01T00:00:00.000Z"
                    [] App.initial))))
  = App.VLayout (Some App.LibraryPage) false.
Proof.
  destruct (layout_when_authenticated_or_auth_page_unknown false false
              (App.onNavigate "dashboard"
                 (snd (fst (App.handlePrivacyConsent true true
                              "2025-01-01T00:00:00.000Z" [] App.initial)))))
    as (_ & H & _).
  destruct (H eq_refl eq_refl eq_refl eq_refl) as [content Hc].
  rewrite Hc. vm_compute in Hc. injection Hc as <-. reflexivity.
Defined.

(** X15.  Declining the consent closes the modal, stores the answer and
    asks the main process to quit only when the IPC transport exists;
    without it (the page opened in a browser) nothing is sent, and from
    then on an authenticated user is shown the application layout with the
    protection badge on while the protection is asked to stop, never to
    start. *)
Theorem decline_without_ipc_keeps_running
    (now : string) (s : App.Storage) (a : App.State) (can_send isAuthenticated : bool) :
  let '(s', a', sent) := App.handlePrivacyConsent false can_send now s a in
  sent = (if can_send then ["app-quit"] else [])
  /\ App.showPrivacyConsent a' = false
  /\ App.getItem App.consent_key s' = Some "false"
  /\ App.protection_effect isAuthenticated a' = System.CallStop
  /\ exists content, App.render false true a' = App.VLayout content true.
Proof.
  cbn [App.handlePrivacyConsent]. split; [reflexivity |]. split; [reflexivity |].
  split; [apply getItem_setItem |]. split.
  - unfold App.protection_effect. cbn [App.privacyConsentGiven].
    now rewrite andb_false_r.
  - unfold App.render. cbn [App.showPrivacyConsent negb]. eexists. reflexivity.
Qed.

(** X16.  Pressing the permission button of the modal always ends with
    the request flag cleared and the request marked as made.  Because the
    hook's [requestPermission] catches its own failures and answers false,
    the modal never shows its own error text: a missing transport or a
    rejected call shows the denial text, exactly as a refusal does, and
    leaves the permission of the hook as it was, so that on darwin the
    accept button stays disabled unless the permission is held. *)
Theorem modal_permission_request
    (ipc : option (Hook.Reply bool)) (h : Hook.State) (m : Modal.State) :
  let '(h', m', evs) := Modal.click_grant ipc h m in
  Modal.isRequestingPermission m' = false
  /\ Modal.permissionRequested m' = true
  /\ Modal.permissionError m' <> Some Modal.error_message
  /\ (Modal.permissionError m' = None <-> ipc = Some (Hook.Resolved true))
  /\ (ipc <> Some (Hook.Resolved true) ->
      Modal.permissionError m' = Some Modal.denied_message)
  /\ Hook.hasPermission h'
     = match ipc with
       | Some (Hook.Resolved granted) => granted
       | _ => Hook.hasPermission h
       end
  /\ Modal.accept_disabled (Some "darwin") h' = negb (Hook.hasPermission h').
Proof.
  unfold Modal.click_grant, Hook.requestPermission.
  destruct ipc as [[[|]|]|]; cbn; repeat split; try discriminate; try congruence;
    try (intros H; exfalso; apply H; reflexivity).
Qed.

(* ===================================================================== *)
(** ** Signatures that contain one another *)
(* ===================================================================== *)

Lemma Substring_trans (a b c : string) :
  Substring a b -> Substring b c -> Substring a c.
Proof.
  intros (x & y & ->) (u & v & ->). exists (u ++ x), (y ++ v).
  now rewrite !append_assoc.
Qed.

Lemma includes_weaken (P long short : string) :
  Substring short long -> includes P long = true -> includes P short = true.
Proof.
  intros Hs Hl. apply includes_iff. apply includes_iff in Hl.
  eapply Substring_trans; eassumption.
Qed.

(** X17.  The critical signatures [obs64] and [obs-studio] contain the
    signature [obs], so they never decide anything: on every listing the
    critical check answers exactly what a check of [obs], [bandicam] and
    [fraps] alone answers, and it answers true as soon as the lowered
    listing contains the three letters [obs] anywhere, inside any process
    name. *)
Theorem critical_signatures_reduce_to_three (w : World) (st : State) :
  value (checkSpecificProcesses w criticalProcesses st)
  = value (checkSpecificProcesses w ["obs"; "bandicam"; "fraps"] st)
  /\ (forall a b, exec_result w (clock st) (listing_command w) = Some (a ++ "obs" ++ b) ->
      value (checkSpecificProcesses w criticalProcesses st) = true).
Proof.
  split.
  - rewrite !checkSpecificProcesses_value.
    destruct (exec_result w (clock st) (listing_command w)) as [P|]; [|reflexivity].
    unfold criticalProcesses. cbn [find].
    destruct (includes (toLowerCase P) "obs") eqn:Eobs; [reflexivity |].
    destruct (includes (toLowerCase P) "obs64") eqn:E64.
    { rewrite (includes_weaken _ "obs64" "obs") in Eobs;
        [discriminate | now exists EmptyString, "64" | exact E64]. }
    destruct (includes (toLowerCase P) "obs-studio") eqn:Est.
    { rewrite (includes_weaken _ "obs-studio" "obs") in Eobs;
        [discriminate | now exists EmptyString, "-studio" | exact Est]. }
    reflexivity.
  - intros a b HP. apply (critical_check_obs w st _ HP).
    exists a, "obs", b. now split.
Qed.

Lemma critical_signatures_reduce_to_three_witness :
  value (checkSpecificProcesses mobsync_world criticalProcesses
           (initial_state mobsync_world)) = true.
Proof.
  destruct (critical_signatures_reduce_to_three mobsync_world
              (initial_state mobsync_world)) as [_ H].
  apply (H "System  4  m" "ync.exe  2212  explorer.exe  3340"). reflexivity.
Defined.
